(** * A shallow embedding of the querif package (nl2sparql + rdf_graph_builder)

    Python strings are modelled as Rocq [string]s over ASCII characters;
    Python dicts as association lists with insertion-ordered keys
    (updating an existing key keeps its position, as in CPython). *)

From Stdlib Require Import String Ascii List Bool Arith ZArith Lia.
Import ListNotations.
Open Scope bool_scope.

(* ------------------------------------------------------------------ *)
(** ** Python string primitives *)

Module Py.

Local Open Scope string_scope.
Local Open Scope nat_scope.

(** [str.isspace] on ASCII: \t \n \v \f \r, \x1c-\x1f and the space. *)
Definition is_space (c : ascii) : bool :=
  let n := nat_of_ascii c in
  ((9 <=? n) && (n <=? 13)) || ((28 <=? n) && (n <=? 31)) || (n =? 32).

Definition is_digit (c : ascii) : bool :=
  let n := nat_of_ascii c in (48 <=? n) && (n <=? 57).

Definition is_upper (c : ascii) : bool :=
  let n := nat_of_ascii c in (65 <=? n) && (n <=? 90).

Definition is_lower (c : ascii) : bool :=
  let n := nat_of_ascii c in (97 <=? n) && (n <=? 122).

Definition is_alpha (c : ascii) : bool := is_upper c || is_lower c.

(** The regex class [\w] on ASCII. *)
Definition is_word (c : ascii) : bool :=
  is_alpha c || is_digit c || Ascii.eqb c "_"%char.

Definition lower_char (c : ascii) : ascii :=
  if is_upper c then ascii_of_nat (nat_of_ascii c + 32) else c.

Definition upper_char (c : ascii) : ascii :=
  if is_lower c then ascii_of_nat (nat_of_ascii c - 32) else c.

(** [str.lower] *)
Fixpoint lower (s : string) : string :=
  match s with
  | EmptyString => EmptyString
  | String c s' => String (lower_char c) (lower s')
  end.

(** [sub in s] for strings. *)
Fixpoint contains (sub s : string) : bool :=
  if String.prefix sub s then true
  else match s with
       | EmptyString => false
       | String _ s' => contains sub s'
       end.

Fixpoint lstrip (s : string) : string :=
  match s with
  | String c s' => if is_space c then lstrip s' else s
  | EmptyString => EmptyString
  end.

Definition rev_string (s : string) : string :=
  string_of_list_ascii (rev (list_ascii_of_string s)).

(** [str.strip()] *)
Definition strip (s : string) : string :=
  rev_string (lstrip (rev_string (lstrip s))).

(** [str.split()] without arguments: runs of whitespace separate,
    no empty pieces. *)
Fixpoint split_ws_aux (s : string) (cur : string) : list string :=
  match s with
  | EmptyString => if String.eqb cur "" then [] else [cur]
  | String c s' =>
      if is_space c then
        (if String.eqb cur "" then [] else [cur]) ++ split_ws_aux s' ""
      else split_ws_aux s' (cur ++ String c "")
  end.

Definition split_ws (s : string) : list string := split_ws_aux s "".

(** [str.split(sep)] for a one-character separator. *)
Fixpoint split_char_aux (sep : ascii) (s : string) (cur : string) : list string :=
  match s with
  | EmptyString => [cur]
  | String c s' =>
      if Ascii.eqb c sep then cur :: split_char_aux sep s' ""
      else split_char_aux sep s' (cur ++ String c "")
  end.

Definition split_char (sep : ascii) (s : string) : list string :=
  split_char_aux sep s "".

(** [xs[-1]] on the (never empty) result of [split]. *)
Definition last_piece (l : list string) : string := last l "".

(** [str.split(sep, 1)] when [sep in s]; [None] when [sep] does not occur. *)
Fixpoint split_first (sep : ascii) (s : string) : option (string * string) :=
  match s with
  | EmptyString => None
  | String c s' =>
      if Ascii.eqb c sep then Some ("", s')
      else match split_first sep s' with
           | Some (a, b) => Some (String c a, b)
           | None => None
           end
  end.

(** [s.replace(old, new)] for a non-empty [old]: left-to-right,
    non-overlapping occurrences. *)
Fixpoint replace_aux (fuel : nat) (old new s : string) : string :=
  match fuel with
  | O => s
  | S f =>
      if String.prefix old s then
        new ++ replace_aux f old new (substring (String.length old)
                                        (String.length s - String.length old) s)
      else match s with
           | EmptyString => EmptyString
           | String c s' => String c (replace_aux f old new s')
           end
  end.

Definition replace (old new s : string) : string :=
  replace_aux (S (String.length s)) old new s.

(** [str(n)] for a non-negative integer. *)
Fixpoint nat_to_string_aux (fuel n : nat) (acc : string) : string :=
  match fuel with
  | O => acc
  | S f =>
      let acc' := String (ascii_of_nat (48 + n mod 10)) acc in
      if n <? 10 then acc' else nat_to_string_aux f (n / 10) acc'
  end.

Definition nat_to_string (n : nat) : string := nat_to_string_aux (S n) n "".

(** The double quote character (for SPARQL text containing literals). *)
Definition dq : string := String (ascii_of_nat 34) EmptyString.

(** Python dict operations over association lists. *)
Section Dict.
Context {K V : Type} (keq : K -> K -> bool).

Fixpoint dict_get (d : list (K * V)) (k : K) : option V :=
  match d with
  | [] => None
  | (k', v) :: d' => if keq k k' then Some v else dict_get d' k
  end.

(** [d[k] = v]: in place when [k] is present, appended otherwise. *)
Fixpoint dict_set (d : list (K * V)) (k : K) (v : V) : list (K * V) :=
  match d with
  | [] => [(k, v)]
  | (k', v') :: d' => if keq k k' then (k', v) :: d' else (k', v') :: dict_set d' k v
  end.

Definition dict_mem (d : list (K * V)) (k : K) : bool :=
  match dict_get d k with Some _ => true | None => false end.
End Dict.

Definition sget {V} := @dict_get string V String.eqb.
Definition sset {V} := @dict_set string V String.eqb.
Definition smem {V} := @dict_mem string V String.eqb.

End Py.

(* ------------------------------------------------------------------ *)
(** ** const/prefixes.py *)

Module Prefixes.

Local Open Scope string_scope.
Local Open Scope nat_scope.

Definition namespaces : list (string * string) :=
  [ ("rdf", "http://www.w3.org/1999/02/22-rdf-syntax-ns#");
    ("rdfs", "http://www.w3.org/2000/01/rdf-schema#");
    ("owl", "http://www.w3.org/2002/07/owl#");
    ("xsd", "http://www.w3.org/2001/XMLSchema#");
    ("dbr", "http://dbpedia.org/resource/");
    ("dbo", "http://dbpedia.org/ontology/");
    ("dbp", "http://dbpedia.org/property/");
    ("dbc", "http://dbpedia.org/resource/Category:");
    ("dbt", "http://dbpedia.org/resource/Template:");
    ("foaf", "http://xmlns.com/foaf/0.1/");
    ("dc", "http://purl.org/dc/elements/1.1/");
    ("dcterms", "http://purl.org/dc/terms/");
    ("skos", "http://www.w3.org/2004/02/skos/core#");
    ("geo", "http://www.w3.org/2003/01/geo/wgs84_pos#");
    ("georss", "http://www.georss.org/georss/");
    ("prov", "http://www.w3.org/ns/prov#");
    ("wikidata", "http://www.wikidata.org/entity/");
    ("schema", "http://schema.org/") ].

(** [namespaces_rev = {v: k for k, v in namespaces.items()}] *)
Definition namespaces_rev : list (string * string) :=
  fold_left (fun d '(k, v) => Py.sset d v k) namespaces [].

(** [prefixes = "\n".join(f"PREFIX {prefix}: <{uri}>" ...) + "\n"] *)
Definition nl : string := String (ascii_of_nat 10) EmptyString.

Definition prefixes : string :=
  String.concat nl (map (fun '(p, u) => "PREFIX " ++ p ++ ": <" ++ u ++ ">") namespaces) ++ nl.

Fixpoint uri_to_prefixed_loop (tbl : list (string * string)) (uri : string) : string :=
  match tbl with
  | [] => uri
  | (full_uri, prefix) :: tbl' =>
      if String.prefix full_uri uri then
        let local_name := substring (String.length full_uri)
                            (String.length uri - String.length full_uri) uri in
        prefix ++ ":" ++ local_name
      else uri_to_prefixed_loop tbl' uri
  end.

Definition uri_to_prefixed (uri : string) : string :=
  uri_to_prefixed_loop namespaces_rev uri.

(** [if ":" in prefixed: prefix, local_name = prefixed.split(":", 1)]:
    [split_first] succeeds exactly when [":"] occurs. *)
Definition prefixed_to_uri (prefixed : string) : string :=
  match Py.split_first ":"%char prefixed with
  | Some (prefix, local_name) =>
      match Py.sget namespaces prefix with
      | Some ns => ns ++ local_name
      | None => prefixed
      end
  | None => prefixed
  end.

End Prefixes.

(* ------------------------------------------------------------------ *)
(** ** The fragment of Python's [re] used by rdf_graph_builder.py

    A backtracking matcher in continuation-passing style, trying the
    alternatives in Python's priority order (left branch first, greedy
    repetition tries one more iteration first, lazy repetition tries to
    stop first), so that [search] and [findall] return the match Python
    returns.  Character classes are predicates; under [re.IGNORECASE] a
    character also matches when its other ASCII case does. *)

Module Regex.

Local Open Scope nat_scope.

Inductive regex : Type :=
| REps
| RChar (p : ascii -> bool)
| RSeq (r1 r2 : regex)
| RAlt (r1 r2 : regex)
| RStar (greedy : bool) (r : regex)
| RGroup (n : nat) (r : regex).

(** Captured groups, most recent first. *)
Definition caps := list (nat * list ascii).

Definition char_ok (icase : bool) (p : ascii -> bool) (c : ascii) : bool :=
  p c || (icase && (p (Py.lower_char c) || p (Py.upper_char c))).

Section Matcher.
Context {R : Type}.

(** [mt icase r s cs k]: match [r] at the front of [s], then run the
    continuation [k] on the rest; the first success in priority order
    wins.  A repetition stops when an iteration consumes nothing. *)
Fixpoint mt (icase : bool) (r : regex) (s : list ascii) (cs : caps)
         (k : list ascii -> caps -> option R) {struct r} : option R :=
  match r with
  | REps => k s cs
  | RChar p =>
      match s with
      | c :: s' => if char_ok icase p c then k s' cs else None
      | [] => None
      end
  | RSeq r1 r2 => mt icase r1 s cs (fun s' cs' => mt icase r2 s' cs' k)
  | RAlt r1 r2 =>
      match mt icase r1 s cs k with
      | Some x => Some x
      | None => mt icase r2 s cs k
      end
  | RStar greedy r1 =>
      let fix loop (fuel : nat) (s : list ascii) (cs : caps) : option R :=
        match fuel with
        | O => k s cs
        | S f =>
            if greedy then
              match mt icase r1 s cs
                      (fun s' cs' => if length s' <? length s then loop f s' cs' else None) with
              | Some x => Some x
              | None => k s cs
              end
            else
              match k s cs with
              | Some x => Some x
              | None =>
                  mt icase r1 s cs
                    (fun s' cs' => if length s' <? length s then loop f s' cs' else None)
              end
        end in
      loop (S (length s)) s cs
  | RGroup n r1 =>
      mt icase r1 s cs
        (fun s' cs' => k s' ((n, firstn (length s - length s') s) :: cs'))
  end.
End Matcher.

Definition match_at (icase : bool) (r : regex) (s : list ascii)
  : option (list ascii * caps) :=
  mt icase r s [] (fun s' cs => Some (s', cs)).

(** [m.group(n)]; a group that did not participate gives [""]
    (what [findall] reports for it). *)
Definition group (n : nat) (cs : caps) : string :=
  match find (fun '(i, _) => Nat.eqb i n) cs with
  | Some (_, l) => string_of_list_ascii l
  | None => EmptyString
  end.

Definition groups (ngroups : nat) (cs : caps) : list string :=
  map (fun i => group i cs) (seq 1 ngroups).

(** [re.search]: the leftmost match. *)
Fixpoint search_aux (icase : bool) (r : regex) (s : list ascii) : option caps :=
  match match_at icase r s with
  | Some (_, cs) => Some cs
  | None => match s with [] => None | _ :: s' => search_aux icase r s' end
  end.

Definition search (icase : bool) (r : regex) (s : string) : option caps :=
  search_aux icase r (list_ascii_of_string s).

(** [re.findall]: successive non-overlapping leftmost matches, each
    reported as its tuple of groups. *)
Fixpoint findall_aux (fuel : nat) (icase : bool) (r : regex) (ng : nat)
         (s : list ascii) : list (list string) :=
  match fuel with
  | O => []
  | S f =>
      match match_at icase r s with
      | Some (s', cs) =>
          groups ng cs ::
            (if length s' <? length s then findall_aux f icase r ng s'
             else match s with [] => [] | _ :: t => findall_aux f icase r ng t end)
      | None => match s with [] => [] | _ :: t => findall_aux f icase r ng t end
      end
  end.

Definition findall (icase : bool) (r : regex) (ng : nat) (s : string)
  : list (list string) :=
  let l := list_ascii_of_string s in findall_aux (S (length l)) icase r ng l.

(** Building blocks. *)
Definition lit (c : ascii) : regex := RChar (fun x => Ascii.eqb x c).

Fixpoint lits (s : string) : regex :=
  match s with
  | EmptyString => REps
  | String c EmptyString => lit c
  | String c s' => RSeq (lit c) (lits s')
  end.

Definition plus (r : regex) : regex := RSeq r (RStar true r).
Definition star (r : regex) : regex := RStar true r.
Definition lazy_star (r : regex) : regex := RStar false r.

Definition any_char : regex := RChar (fun _ => true).          (* . with DOTALL *)
Definition ws : regex := RChar Py.is_space.                    (* \s *)
Definition word : regex := RChar Py.is_word.                   (* \w *)
Definition name_char : regex :=                                (* [a-zA-Z_:] *)
  RChar (fun c => Py.is_alpha c || Ascii.eqb c "_"%char || Ascii.eqb c ":"%char).
Definition res_char : regex :=                                 (* [A-Za-z_0-9] *)
  RChar (fun c => Py.is_alpha c || Ascii.eqb c "_"%char || Py.is_digit c).
Definition not_gt : regex := RChar (fun c => negb (Ascii.eqb c ">"%char)).   (* [^>] *)
Definition not_dq : regex :=             (* [^q] where q is the double quote *)
  RChar (fun c => negb (Ascii.eqb c (ascii_of_nat 34))).
Definition dq_char : regex := lit (ascii_of_nat 34).

Infix ";;" := RSeq (at level 61, right associativity).

End Regex.

(* ------------------------------------------------------------------ *)
(** ** SPARQL results JSON, as SPARQLWrapper's [convert()] returns it

    [{"results": {"bindings": [row, ...]}}] for SELECT queries and
    [{"boolean": b}] for ASK queries; every key may be missing.  A row
    maps variable names (in the order of the JSON object) to
    [{"type": ..., "value": ...}]. *)

Module Sparql.

Record rdf_value : Type := mk_value { vtype : option string; vvalue : option string }.

Definition binding : Type := list (string * rdf_value).

Record results_obj : Type := mk_results { bindings : option (list binding) }.

Record qresult : Type := mk_qresult { q_results : option results_obj; q_boolean : option bool }.

(** The Python exceptions the embedded code can raise. *)
Inductive exn : Type :=
| ValueError (msg : string)
| TypeError (msg : string)
| KeyError (key : string)
| IndexError
| ServiceError.     (* an exception raised by requests / openai / SPARQLWrapper *)

End Sparql.

Import Sparql.

(* ------------------------------------------------------------------ *)
(** ** rdf_graph_builder.py *)

Module Builder.

Import Regex.
Local Open Scope string_scope.
Local Open Scope nat_scope.

(** [re.search(r'WHERE\s*\{(.*?)\}', q, re.DOTALL | re.IGNORECASE)] *)
Definition where_re : regex :=
  lits "WHERE" ;; star ws ;; lit "{" ;; RGroup 1 (lazy_star any_char) ;; lit "}".

(** [r'(\?\w+)\s+(rdf:type|a)\s+([a-zA-Z_:]+)'] (with [re.IGNORECASE]) *)
Definition type_pattern : regex :=
  RGroup 1 (lit "?" ;; plus word) ;; plus ws ;;
  RGroup 2 (RAlt (lits "rdf:type") (lit "a")) ;; plus ws ;;
  RGroup 3 (plus name_char).

(** [r'(\?\w+|<[^>]+>|[a-zA-Z_:]+)\s+([a-zA-Z_:]+)\s+(\?\w+|<[^>]+>|Q[^Q]*Q)']
    where Q stands for the double quote character. *)
Definition property_pattern : regex :=
  RGroup 1 (RAlt (lit "?" ;; plus word)
             (RAlt (lit "<" ;; plus not_gt ;; lit ">") (plus name_char))) ;;
  plus ws ;;
  RGroup 2 (plus name_char) ;;
  plus ws ;;
  RGroup 3 (RAlt (lit "?" ;; plus word)
             (RAlt (lit "<" ;; plus not_gt ;; lit ">") (dq_char ;; star not_dq ;; dq_char))).

(** [r'(dbr:[A-Za-z_0-9]+)'] *)
Definition resource_pattern : regex := RGroup 1 (lits "dbr:" ;; plus res_char).

(** [r'<http://dbpedia\.org/resource/([^>]+)>'] *)
Definition artist_pattern : regex :=
  lits "<http://dbpedia.org/resource/" ;; RGroup 1 (plus not_gt) ;; lit ">".

(** The dict returned by [parse_sparql_query]; [classes] holds the
    [{'variable': v, 'class': c}] entries as pairs [(v, c)], [properties]
    the [{'subject', 'predicate', 'object'}] entries as triples. *)
Record parsed_query : Type := mk_parsed {
  main_entity : option string;
  classes : list (string * string);
  properties : list (string * string * string);
  filters : list string }.

Definition nth_group (g : list string) (i : nat) : string := nth i g "".

(** [RDFGraphBuilder.parse_sparql_query].  The list [triples] the source
    computes with [triple_pattern] is never read, so it is not modelled. *)
Definition parse_sparql_query (sparql_query : string) : parsed_query :=
  match search true where_re sparql_query with
  | None => mk_parsed None [] [] []
  | Some m =>
      let where_clause := group 1 m in
      let type_matches := findall true type_pattern 3 where_clause in
      let cls := map (fun g => (nth_group g 0, nth_group g 2)) type_matches in
      let property_matches := findall false property_pattern 3 where_clause in
      let props :=
        map (fun g => (nth_group g 0, nth_group g 1, nth_group g 2))
          (filter (fun g => negb (existsb (String.eqb (nth_group g 1)) ["rdf:type"; "a"]))
             property_matches) in
      let resources := findall false resource_pattern 1 sparql_query in
      let me := match resources with r :: _ => Some (nth_group r 0) | [] => None end in
      mk_parsed me cls props []
  end.

(** The builder's state: the networkx [DiGraph] (nodes with their
    [type]/[label] attributes once set, edges keyed by their endpoints with
    their [property] attribute), [self.entities] and [self.properties]. *)
Record entity : Type := mk_entity { e_type : string; e_label : string; e_uri : string }.

Record builder : Type := mk_builder {
  g_nodes : list (string * option (string * string));
  g_edges : list ((string * string) * string);
  entities : list (string * entity);
  edge_list : list (string * string * string) }.

Definition fresh_builder : builder := mk_builder [] [] [] [].

Definition pair_eqb (a b : string * string) : bool :=
  String.eqb (fst a) (fst b) && String.eqb (snd a) (snd b).

(** [DiGraph.add_node(n, type=t, label=l)] *)
Definition graph_add_node (nodes : list (string * option (string * string)))
           (n t l : string) := Py.sset nodes n (Some (t, l)).

(** [DiGraph.add_edge(u, v, property=p)]: endpoints not yet in the graph
    are added without attributes. *)
Definition node_ensure (nodes : list (string * option (string * string))) (n : string) :=
  if Py.smem nodes n then nodes else app nodes [(n, None)].

(** Python truthiness of an optional string. *)
Definition truthy (o : option string) : bool :=
  match o with Some s => negb (String.eqb s "") | None => false end.

Definition add_entity (b : builder) (entity_id entity_type label : string)
           (uri : option string) : builder :=
  mk_builder (graph_add_node (g_nodes b) entity_id entity_type label)
    (g_edges b)
    (Py.sset (entities b) entity_id
       (mk_entity entity_type label (if truthy uri then match uri with Some u => u | None => entity_id end
                                     else entity_id)))
    (edge_list b).

Definition add_property (b : builder) (subject predicate obj : string) : builder :=
  mk_builder (node_ensure (node_ensure (g_nodes b) subject) obj)
    (Py.dict_set pair_eqb (g_edges b) (subject, obj) predicate)
    (entities b)
    (app (edge_list b) [(subject, predicate, obj)]).

(** A call either returns, or raises with the state mutated so far. *)
Inductive outcome : Type :=
| Ok (b : builder)
| Raised (e : exn) (b : builder).

(** [results['results']['bindings'][:max_results]] *)
Definition slice_upto {A} (l : list A) (m : Z) : list A :=
  if (0 <=? m)%Z then firstn (Z.to_nat m) l
  else firstn (Z.to_nat (Z.of_nat (length l) + m)) l.

(** [x = uri_to_prefixed(u); if x == u: x = u.split('/')[-1]] *)
Definition resource_id_of (u : string) : string :=
  let r := Prefixes.uri_to_prefixed u in
  if String.eqb r u then Py.last_piece (Py.split_char "/" u) else r.

(** [==] on a value that is either [None] or a string. *)
Definition opt_str_eqb (a b : option string) : bool :=
  match a, b with
  | Some x, Some y => String.eqb x y
  | None, None => true
  | _, _ => false
  end.

Definition str_in (s : string) (l : list string) : bool := existsb (String.eqb s) l.

(** [binding[key]['value']] *)
Definition binding_value (bd : binding) (key : string) : option string :=
  match Py.sget bd key with Some v => vvalue v | None => None end.

(** The body of [for var_name, var_value in binding.items()]. *)
Definition process_var (sparql_query : string) (main_class main_entity : option string)
           (idx : nat) (bd : binding) (b : builder) (var_name : string) (var_value : rdf_value)
  : outcome :=
  let value_type := vtype var_value in
  match vvalue var_value with
  | None => Ok b
  | Some value =>
    if String.eqb value "" then Ok b else
    if opt_str_eqb value_type (Some "uri") then
      let resource_id := resource_id_of value in
      let label := Py.replace "_" " " (Py.last_piece (Py.split_char ":" resource_id)) in
      if str_in var_name ["album"; "movie"; "film"; "book"; "song"] then
        let b1 := add_entity b resource_id "resource" label (Some value) in
        let b2 := match main_class with
                  | Some mc => if truthy main_class then add_property b1 resource_id "rdf:type" mc else b1
                  | None => b1
                  end in
        let q := Py.lower sparql_query in
        let b3 := match main_entity with
                  | Some me =>
                      if truthy main_entity then
                        if Py.contains "artist" q then add_property b2 resource_id "dbo:artist" me
                        else if Py.contains "director" q then add_property b2 resource_id "dbo:director" me
                        else if Py.contains "author" q then add_property b2 resource_id "dbo:author" me
                        else b2
                      else b2
                  | None => b2
                  end in
        Ok b3
      else Ok (add_entity b resource_id "resource" label (Some value))
    else if opt_str_eqb value_type (Some "literal") then
      let literal_id := "literal_" ++ Py.nat_to_string idx ++ "_" ++ var_name in
      let display_value :=
        if 50 <? String.length value then substring 0 50 value ++ "..." else value in
      let b1 := add_entity b literal_id "literal" display_value None in
      let link (key : string) :=
        match binding_value bd key with
        | None => Raised (KeyError "value") b1
        | Some u =>
            if str_in var_name ["title"; "label"; "name"]
            then Ok (add_property b1 (resource_id_of u) ("rdfs:" ++ var_name) literal_id)
            else Ok b1
        end in
      if Py.smem bd "album" then link "album"
      else if Py.smem bd "song" then link "song"
      else if Py.smem bd "movie" || Py.smem bd "film" then
        link (if Py.smem bd "movie" then "movie" else "film")
      else Ok b1
    else Ok b
  end.

Fixpoint process_row (sparql_query : string) (main_class main_entity : option string)
         (idx : nat) (bd : binding) (items : binding) (b : builder) : outcome :=
  match items with
  | [] => Ok b
  | (var_name, var_value) :: rest =>
      match process_var sparql_query main_class main_entity idx bd b var_name var_value with
      | Ok b' => process_row sparql_query main_class main_entity idx bd rest b'
      | Raised e b' => Raised e b'
      end
  end.

Fixpoint process_rows (sparql_query : string) (main_class main_entity : option string)
         (idx : nat) (rows : list binding) (b : builder) : outcome :=
  match rows with
  | [] => Ok b
  | bd :: rest =>
      match process_row sparql_query main_class main_entity idx bd bd b with
      | Ok b' => process_rows sparql_query main_class main_entity (S idx) rest b'
      | Raised e b' => Raised e b'
      end
  end.

(** [RDFGraphBuilder.build_from_results] (the printed message is not
    modelled). *)
Definition build_from_results (b : builder) (sparql_query : string) (results : qresult)
           (max_results : Z) : outcome :=
  match q_results results with
  | None => Ok b
  | Some r =>
    match bindings r with
    | None => Ok b
    | Some all_rows =>
      let rows := slice_upto all_rows max_results in
      let parsed := parse_sparql_query sparql_query in
      let me0 := main_entity parsed in
      let main_entity :=
        match search false artist_pattern sparql_query with
        | Some m => if negb (truthy me0) then Some ("dbr:" ++ group 1 m) else me0
        | None => me0
        end in
      let main_class := match classes parsed with (_, c) :: _ => Some c | [] => None end in
      let b1 := match main_entity with
                | Some me =>
                    if truthy main_entity then
                      let entity_name :=
                        Py.strip (Py.replace "(musician)" ""
                                    (Py.replace "_" " " (Py.last_piece (Py.split_char ":" me)))) in
                      add_entity b me "resource" entity_name (Some me)
                    else b
                | None => b
                end in
      let b2 := match main_class with
                | Some mc =>
                    if truthy main_class then
                      add_entity b1 mc "class" (Py.last_piece (Py.split_char ":" mc)) None
                    else b1
                | None => b1
                end in
      process_rows sparql_query main_class main_entity 0 rows b2
    end
  end.

End Builder.

(* ------------------------------------------------------------------ *)
(** ** nl2sparql: the external services and the effect monad

    The generators talk to three services: DBpedia Spotlight (through
    [requests.get]), an OpenAI-compatible chat endpoint, and the DBpedia
    SPARQL endpoint (through [execute_query]).  An environment [env] fixes
    what each service answers; a computation threads the trace of the
    calls made so far and ends in a value or a raised exception. *)

Module NL.

Local Open Scope string_scope.
Local Open Scope nat_scope.

Inductive event : Type :=
| EvSpotlight (text : string)
| EvLLM (model : string) (temperature_tenths : Z) (messages : list (string * string))
| EvSPARQL (query : string).

Record env : Type := mk_env {
  getenv : string -> option string;
  (** status code and the [(@surfaceForm, @URI)] pairs of [Resources];
      [None] when the request itself raises *)
  spotlight : string -> option (Z * list (string * string));
  (** the reply text; [None] when the call raises *)
  llm : string -> Z -> list (string * string) -> option string;
  (** the converted JSON; [None] when the query raises *)
  sparql : string -> option qresult }.

Inductive result (A : Type) : Type :=
| Ret (a : A)
| Exc (e : exn).
Arguments Ret {A} a.
Arguments Exc {A} e.

Definition M (A : Type) : Type := env -> list event -> list event * result A.

Definition ret {A} (a : A) : M A := fun _ tr => (tr, Ret a).

Definition raise {A} (e : exn) : M A := fun _ tr => (tr, Exc e).

Definition bind {A B} (m : M A) (k : A -> M B) : M B :=
  fun en tr =>
    match m en tr with
    | (tr', Ret a) => k a en tr'
    | (tr', Exc e) => (tr', Exc e)
    end.

(** [try: m except Exception: h] *)
Definition try_except {A} (m : M A) (h : exn -> M A) : M A :=
  fun en tr =>
    match m en tr with
    | (tr', Ret a) => (tr', Ret a)
    | (tr', Exc e) => h e en tr'
    end.

Notation "'let*' x ':=' m 'in' k" := (bind m (fun x => k))
  (at level 200, x name, m at level 100, k at level 200).

(** [os.getenv] *)
Definition os_getenv (name : string) : M (option string) :=
  fun en tr => (tr, Ret (getenv en name)).

(** [requests.get("https://api.dbpedia-spotlight.org/en/annotate", ...)] *)
Definition spotlight_annotate (text : string) : M (Z * list (string * string)) :=
  fun en tr =>
    let tr' := app tr [EvSpotlight text] in
    match spotlight en text with
    | Some r => (tr', Ret r)
    | None => (tr', Exc ServiceError)
    end.

(** [client.chat.completions.create(...).choices[0].message.content] *)
Definition chat_create (model : string) (temperature : Z) (messages : list (string * string))
  : M string :=
  fun en tr =>
    let tr' := app tr [EvLLM model temperature messages] in
    match llm en model temperature messages with
    | Some r => (tr', Ret r)
    | None => (tr', Exc ServiceError)
    end.

(** [execute.execute_query] *)
Definition execute_query (query : string) : M qresult :=
  fun en tr =>
    let tr' := app tr [EvSPARQL query] in
    match sparql en query with
    | Some r => (tr', Ret r)
    | None => (tr', Exc ServiceError)
    end.

(** [results["results"]["bindings"]] *)
Definition get_bindings (r : qresult) : M (list binding) :=
  match q_results r with
  | None => raise (KeyError "results")
  | Some o => match bindings o with
              | None => raise (KeyError "bindings")
              | Some bs => ret bs
              end
  end.

(** [row[var]["value"]] *)
Definition row_value (row : binding) (var : string) : M string :=
  match Py.sget row var with
  | None => raise (KeyError var)
  | Some v => match vvalue v with
              | None => raise (KeyError "value")
              | Some s => ret s
              end
  end.

Fixpoint mapM {A B} (f : A -> M B) (l : list A) : M (list B) :=
  match l with
  | [] => ret []
  | x :: l' => let* y := f x in let* ys := mapM f l' in ret (y :: ys)
  end.

(** Python's exception hierarchy: the subclasses of [LookupError]. *)
Definition is_lookup_error (e : exn) : bool :=
  match e with KeyError _ | IndexError => true | _ => false end.

(* ------------------------------------------------------------------ *)
(** ** nl2sparql/utils.py *)

(** Temperatures are kept in tenths: 0.4 is [4]. *)
Record config : Type := mk_config { c_prefix : string; c_model : string; c_temperature : Z }.

Definition configs : list (string * config) :=
  [ ("LIRIS", mk_config "LIRIS" "llama3:70b" 4%Z);
    ("DEEPSEEK", mk_config "DEEPSEEK" "deepseek-chat" 4%Z) ].

Inductive QueryType : Type :=
| FACT_LOOKUP | CLASS_QUERY | AGGREGATION | COMPARISON
| DEFINITION | RELATIONSHIP | SUPERLATIVE | BOOLEAN.

Definition QueryType_eqb (a b : QueryType) : bool :=
  match a, b with
  | FACT_LOOKUP, FACT_LOOKUP | CLASS_QUERY, CLASS_QUERY | AGGREGATION, AGGREGATION
  | COMPARISON, COMPARISON | DEFINITION, DEFINITION | RELATIONSHIP, RELATIONSHIP
  | SUPERLATIVE, SUPERLATIVE | BOOLEAN, BOOLEAN => true
  | _, _ => false
  end.

(** The prompt texts write the double quote as [^]. *)
Definition with_dq (s : string) : string := Py.replace "^" Py.dq s.

Definition query_type_detection_prompt : string := with_dq "
Classify the user's question into exactly ONE category:

- FACT_LOOKUP: Asking for a specific property of a named entity
  Examples: ^When was Obama born?^, ^How long was WW2?^, ^What is the capital of France?^

- CLASS_QUERY: Asking for a list of things matching criteria
  Examples: ^Cities in France with population > 1M^, ^Movies directed by Spielberg^

- AGGREGATION: Asking for counts, sums, or statistics
  Examples: ^How many albums did Adele release?^, ^Total population of EU countries^

- COMPARISON: Comparing two or more entities
  Examples: ^Who is older, Obama or Trump?^, ^Which city is larger, Paris or London?^

- DEFINITION: Asking what something or someone is
  Examples: ^What is DBpedia?^, ^Who is Albert Einstein?^, ^What is the Eiffel Tower?^

- RELATIONSHIP: Finding how entities are connected
  Examples: ^How are Obama and Biden related?^, ^What connects Apple and Steve Jobs?^

- SUPERLATIVE: Asking for extremes (largest, oldest, most, etc.)
  Examples: ^Largest city in Germany^, ^Oldest university in the world^, ^Most populated country^

- BOOLEAN: Yes/no questions
  Examples: ^Is Paris the capital of France?^, ^Did Einstein win a Nobel Prize?^

Reply with ONLY the category name in uppercase, nothing else.
".

(** [target_class_detection_prompt.format(n_class=n_class)] *)
Definition target_class_detection_prompt (n_class : string) : string := with_dq ("
You are an expert in DBpedia ontology and SPARQL.
Your task is to identify the most relevant DBpedia classes for a user's query.

Instructions:
- Analyze the user prompt to understand the main entities and concepts
- Return ONLY " ++ n_class ++ " DBpedia class URIs (e.g., dbo:City, dbo:Person, dbo:Film)
- Order them by relevance (most relevant first)
- Separate each URI with a single space
- Do NOT include explanations, prefixes beyond ^dbo:^, or any additional text

Example format: dbo:City dbo:Place dbo:Region dbo:PopulatedPlace
").

Definition EXCLUDED_NAMESPACES : list string :=
  [ "http://www.w3.org/2002/07/owl#";
    "http://www.w3.org/ns/prov#";
    "http://dbpedia.org/resource/Template:";
    "http://www.wikidata.org/entity/";
    "http://purl.org/linguistics/gold/" ].

(** [_create_client]: the client is only a handle on the endpoint. *)
Definition _create_client (prefix : string) : M unit :=
  let* base_url := os_getenv (prefix ++ "_API") in
  let* api_key := os_getenv (prefix ++ "_API_KEY") in
  if negb (Builder.truthy base_url) || negb (Builder.truthy api_key) then
    raise (ValueError (prefix ++ "_API and " ++ prefix ++ "_API_KEY must be set in environment variables."))
  else ret tt.

(** [str(n)] for a Python int. *)
Definition Z_to_string (z : Z) : string :=
  if (z <? 0)%Z then "-" ++ Py.nat_to_string (Z.to_nat (- z)) else Py.nat_to_string (Z.to_nat z).

(** [_get_entities] (default confidence 0.3). *)
Definition _get_entities (text : string) : M (list (string * string)) :=
  let* response := spotlight_annotate text in
  let '(status, resources) := response in
  if (status =? 200)%Z then
    ret (fold_left (fun ents '(surface, uri0) =>
                      Py.sset ents surface (Py.replace "http://dbpedia.org/resource/" "dbr:" uri0))
           resources [])
  else raise (ValueError ("DBpedia Spotlight request failed with status code " ++ Z_to_string status)).

(** [_verify_classes_exist] *)
Definition verify_classes_query (classes : list string) : string :=
  let values_clause := String.concat " " (map (fun c => "(" ++ c ++ ")") classes) in
  "
    SELECT DISTINCT ?class WHERE {
        VALUES (?class) { " ++ values_clause ++ " }
        ?class rdf:type owl:Class .
    }
    ".

Definition _verify_classes_exist (classes : list string) : M (list string) :=
  match classes with
  | [] => ret []
  | _ =>
    try_except
      (let* results := execute_query (Prefixes.prefixes ++ verify_classes_query classes) in
       let* rows := get_bindings results in
       let* existing := mapM (fun r => let* v := row_value r "class" in
                                      ret (Prefixes.uri_to_prefixed v)) rows in
       ret (filter (fun c => Builder.str_in c existing) classes))
      (fun _ => ret classes)
  end.

Definition target_class_messages (prompt : string) (n_class : Z) : list (string * string) :=
  [("system", target_class_detection_prompt (Z_to_string n_class)); ("user", prompt)].

(** [_get_target_classes] (the warning it may emit is not modelled). *)
Definition _get_target_classes (prompt : string) (n_class : Z) (config_key : string)
  : M (list string) :=
  match Py.sget configs config_key with
  | None => raise (ValueError ("No configuration found for key: " ++ config_key))
  | Some config =>
    let* _ := _create_client (c_prefix config) in
    let* classes_str := chat_create (c_model config) (c_temperature config)
                          (target_class_messages prompt n_class) in
    let classes := Py.split_ws (Py.strip classes_str) in
    let* verified_classes := _verify_classes_exist classes in
    ret verified_classes
  end.

Fixpoint upper (s : string) : string :=
  match s with
  | EmptyString => EmptyString
  | String c s' => String (Py.upper_char c) (upper s')
  end.

Definition type_mapping : list (string * QueryType) :=
  [ ("FACT_LOOKUP", FACT_LOOKUP); ("CLASS_QUERY", CLASS_QUERY);
    ("AGGREGATION", AGGREGATION); ("COMPARISON", COMPARISON);
    ("DEFINITION", DEFINITION); ("RELATIONSHIP", RELATIONSHIP);
    ("SUPERLATIVE", SUPERLATIVE); ("BOOLEAN", BOOLEAN) ].

(** Lines 306-319 of [_detect_query_type]: from the reply to the type. *)
Definition type_of_reply (content : string) : QueryType :=
  let type_str := upper (Py.strip content) in
  match Py.sget type_mapping type_str with
  | Some t => t
  | None => CLASS_QUERY
  end.

Definition detection_messages (prompt : string) : list (string * string) :=
  [("system", query_type_detection_prompt); ("user", prompt)].

(** [_detect_query_type] (temperature 0.1). *)
Definition _detect_query_type (prompt : string) (config_key : string) : M QueryType :=
  match Py.sget configs config_key with
  | None => raise (ValueError ("No configuration found for key: " ++ config_key))
  | Some config =>
    let* _ := _create_client (c_prefix config) in
    let* content := chat_create (c_model config) 1%Z (detection_messages prompt) in
    ret (type_of_reply content)
  end.

(** [_get_entity_properties] *)
Definition entity_properties_query (entity_uri : string) (limit : Z) : string :=
  let exclusion_filters :=
    String.concat " && "
      (map (fun u => "!STRSTARTS(STR(?property), " ++ Py.dq ++ u ++ Py.dq ++ ")") EXCLUDED_NAMESPACES) in
  "
    SELECT DISTINCT ?property ?value WHERE {
        " ++ entity_uri ++ " ?property ?value .
        FILTER(" ++ exclusion_filters ++ ")
    } LIMIT " ++ Z_to_string limit ++ "
    ".

Definition _get_entity_properties (entity_uri : string) (limit : Z)
  : M (list (string * string)) :=
  let* results := execute_query (Prefixes.prefixes ++ entity_properties_query entity_uri limit) in
  let* rows := get_bindings results in
  mapM (fun r =>
          let* p := row_value r "property" in
          let* value := row_value r "value" in
          let prop_name := Prefixes.uri_to_prefixed p in
          let value := if 100 <? String.length value then substring 0 100 value ++ "..." else value in
          ret (prop_name, value)) rows.

(** [_clean_sparql_response] *)
Definition _clean_sparql_response (response : string) : string :=
  let query := Py.strip response in
  let query := Py.replace "```" "" (Py.replace "```sql" "" (Py.replace "```sparql" "" query)) in
  Py.strip query.

(** [_check_response_is_empty] *)
Definition _check_response_is_empty (response : qresult) : bool :=
  match q_results response with
  | Some r => match bindings r with
              | Some bs => Nat.eqb (length bs) 0
              | None => false
              end
  | None => false
  end.

End NL.

(* ------------------------------------------------------------------ *)
(** ** nl2sparql/queries and nl2sparql/main.py *)

Module Queries.

Import NL.
Local Open Scope string_scope.
Local Open Scope nat_scope.

Definition answer : Type := option string * option qresult.

(** [fact_lookup_prompt.format(question=..., entity=..., properties=...)] *)
Definition fact_lookup_prompt (question entity properties : string) : string := "
You are a SPARQL expert for DBpedia.

Generate a SPARQL query to retrieve a specific fact about an entity.

Rules:
- Select the most relevant property values from the available properties
- Use FILTER with language tags for string values (usually @en)
- Handle optional properties gracefully
- Return ONLY the SPARQL query, no explanations or markdown

Question: " ++ question ++ "

Entity: " ++ entity ++ "

Available properties on this entity:
" ++ properties ++ "

Generate the SPARQL query:
".

(** The closing [try] block of [fact_lookup_query] (lines 74-81). *)
Definition fact_lookup_try (query : string) : M answer :=
  let* r := try_except
              (let* results := execute_query (Prefixes.prefixes ++ query) in
               if negb (_check_response_is_empty results)
               then ret (Some (Some query, Some results))
               else ret None)
              (fun _ => ret None) in
  match r with
  | Some a => ret a
  | None => ret (None, None)
  end.

(** [fact_lookup_query]; [configs.get(config_key)["prefix"]] on a missing
    key subscripts [None], a [TypeError]. *)
Definition fact_lookup_query (prompt : string) (config_key : string) : M answer :=
  let* entities := _get_entities prompt in
  match entities with
  | [] => raise (ValueError "No entities found in the prompt for fact lookup query.")
  | (_, main_entity) :: _ =>
    let* props := _get_entity_properties main_entity 30 in
    match props with
    | [] => raise (ValueError "No properties found for the main entity in fact lookup query.")
    | _ =>
      let props_str := String.concat Prefixes.nl
                         (map (fun '(p, v) => "  " ++ p ++ ": " ++ v) props) in
      match Py.sget configs config_key with
      | None => raise (TypeError "'NoneType' object is not subscriptable")
      | Some config =>
        let* _ := _create_client (c_prefix config) in
        let user_content := fact_lookup_prompt prompt main_entity props_str in
        let* content := chat_create (c_model config) (c_temperature config)
                          [("user", user_content)] in
        let query := _clean_sparql_response content in
        fact_lookup_try query
      end
    end
  end.

(** The SPARQL text of [generate_definition_query]. *)
Definition definition_query (main_entity : string) : string := "
    SELECT ?label ?abstract ?type WHERE {
        " ++ main_entity ++ " rdfs:label ?label ;
                      dbo:abstract ?abstract .
        OPTIONAL { " ++ main_entity ++ " rdf:type ?type . }
        FILTER (lang(?label) = " ++ Py.dq ++ "en" ++ Py.dq ++ " && lang(?abstract) = "
  ++ Py.dq ++ "en" ++ Py.dq ++ ")
    } LIMIT 1
    ".

(** [generate_definition_query(prompt)] *)
Definition generate_definition_query (prompt : string) : M answer :=
  let* entities := _get_entities prompt in
  match entities with
  | [] => ret (None, None)
  | (_, main_entity) :: _ =>
    let query := definition_query main_entity in
    let* results := execute_query (Prefixes.prefixes ++ query) in
    ret (Some query, Some results)
  end.

(** A generator as the dispatcher sees it: its Python signature is either
    [(prompt)] or [(prompt, config_key)]. *)
Inductive handler : Type :=
| PromptOnly (f : string -> M answer)
| PromptAndConfig (f : string -> string -> M answer).

(** [handler(prompt=prompt, config_key=config_key)]: a function without a
    [config_key] parameter rejects the keyword with a [TypeError]. *)
Definition call_kw (h : handler) (prompt config_key : string) : M answer :=
  match h with
  | PromptOnly _ => raise (TypeError "got an unexpected keyword argument 'config_key'")
  | PromptAndConfig f => f prompt config_key
  end.

(** The generators whose bodies no claim depends on are parameters of the
    dispatcher; their signatures are those of the source:
    [generate_relationship_query(prompt)] and [(prompt, config_key)] for
    the other five. *)
Section Dispatch.
Variables generate_class_query generate_aggregation_query generate_comparison_query
          generate_superlative_query generate_boolean_query : string -> string -> M answer.
Variable generate_relationship_query : string -> M answer.

Definition handlers : list (QueryType * handler) :=
  [ (FACT_LOOKUP, PromptAndConfig fact_lookup_query);
    (CLASS_QUERY, PromptAndConfig generate_class_query);
    (AGGREGATION, PromptAndConfig generate_aggregation_query);
    (COMPARISON, PromptAndConfig generate_comparison_query);
    (DEFINITION, PromptOnly generate_definition_query);
    (RELATIONSHIP, PromptOnly generate_relationship_query);
    (SUPERLATIVE, PromptAndConfig generate_superlative_query);
    (BOOLEAN, PromptAndConfig generate_boolean_query) ].

(** [generate_and_execute_query] (the printed type is not modelled). *)
Definition generate_and_execute_query (prompt : string) (config_key : string) : M answer :=
  let* query_type := _detect_query_type prompt config_key in
  match Py.dict_get QueryType_eqb handlers query_type with
  | Some h => call_kw h prompt config_key
  | None => ret (None, None)
  end.
End Dispatch.

End Queries.

(* ------------------------------------------------------------------ *)
(** ** rdf_graph_builder.py: build_from_sparql, print_summary, export_to_turtle *)

Module GraphOps.

Import Builder.
Local Open Scope string_scope.
Local Open Scope nat_scope.

(** [s.strip(c)] for a one-character argument. *)
Fixpoint lstrip_char (c : ascii) (s : string) : string :=
  match s with
  | String x s' => if Ascii.eqb x c then lstrip_char c s' else s
  | EmptyString => EmptyString
  end.

Definition strip_char (c : ascii) (s : string) : string :=
  Py.rev_string (lstrip_char c (Py.rev_string (lstrip_char c s))).

(** The class loop of [build_from_sparql] (lines 98-107). *)
Definition sparql_class_step (b : builder) (class_info : string * string) : builder :=
  let '(var, class_type) := class_info in
  let b1 := add_entity b class_type "class" (Py.last_piece (Py.split_char ":" class_type)) None in
  let b2 := add_entity b1 var "resource" var None in
  add_property b2 var "rdf:type" class_type.

(** Lines 122-129: the type of the object and the object itself. *)
Definition object_kind (obj : string) : string * string :=
  if String.prefix "?" obj then ("resource", obj)
  else if String.prefix Py.dq obj then ("literal", strip_char (ascii_of_nat 34) obj)
  else ("resource", obj).

(** The property loop of [build_from_sparql] (lines 116-137). *)
Definition sparql_property_step (b : builder) (prop : string * string * string) : builder :=
  let '(subj, pred, obj0) := prop in
  let '(obj_type, obj) := object_kind obj0 in
  let b1 := if Py.smem (entities b) subj then b else add_entity b subj "resource" subj None in
  let b2 := if Py.smem (entities b1) obj then b1 else add_entity b1 obj obj_type obj None in
  add_property b2 subj pred obj.

(** [RDFGraphBuilder.build_from_sparql]; [natural_language] is unused. *)
Definition build_from_sparql (b : builder) (sparql_query natural_language : string) : builder :=
  let parsed := parse_sparql_query sparql_query in
  let b1 := fold_left sparql_class_step (classes parsed) b in
  let b2 := match main_entity parsed with
            | Some entity =>
                if truthy (main_entity parsed) then
                  let entity_name := Py.replace "_" " " (Py.last_piece (Py.split_char ":" entity)) in
                  add_entity b1 entity "resource" entity_name None
                else b1
            | None => b1
            end in
  fold_left sparql_property_step (properties parsed) b2.

(** The [type_counts] dict of [print_summary]:
    [type_counts[t] = type_counts.get(t, 0) + 1] for each entity. *)
Definition type_count_step (type_counts : list (string * nat)) (item : string * entity)
  : list (string * nat) :=
  let '(_, entity_data) := item in
  let entity_type := e_type entity_data in
  Py.sset type_counts entity_type
    (match Py.sget type_counts entity_type with Some n => n | None => 0 end + 1).

Definition type_counts (b : builder) : list (string * nat) :=
  fold_left type_count_step (entities b) [].

(** The strings [export_to_turtle] writes, in order. *)
Definition turtle_prefix_line (prefix uri : string) : string :=
  "@prefix " ++ prefix ++ ": <" ++ uri ++ "> ." ++ Prefixes.nl.

Definition turtle_triple_line (subj pred obj : string) : string :=
  subj ++ " " ++ pred ++ " " ++ obj ++ " ." ++ Prefixes.nl.

Definition export_to_turtle (b : builder) : list string :=
  app (map (fun '(prefix, uri) => turtle_prefix_line prefix uri) Prefixes.namespaces)
    (app [Prefixes.nl]
       (map (fun '(subj, pred, obj) => turtle_triple_line subj pred obj) (edge_list b))).

(** The builder state a call leaves behind, whether it returned or raised. *)
Definition outcome_state (o : outcome) : builder :=
  match o with Ok b => b | Raised _ b => b end.

(** Every entity is a graph node, and both ends of every recorded triple
    and of every graph edge are graph nodes. *)
Definition graph_closed (b : builder) : Prop :=
  (forall k, Py.smem (entities b) k = true -> Py.smem (g_nodes b) k = true) /\
  (forall s p o, In (s, p, o) (edge_list b) ->
                 Py.smem (g_nodes b) s = true /\ Py.smem (g_nodes b) o = true) /\
  (forall s o p, In ((s, o), p) (g_edges b) ->
                 Py.smem (g_nodes b) s = true /\ Py.smem (g_nodes b) o = true).


(** [b'] extends [b]: the triples of [b] come first in [b'], and the
    entities and nodes of [b] are still there. *)
Definition extends (b b' : builder) : Prop :=
  (exists added, edge_list b' = app (edge_list b) added) /\
  (forall k, Py.smem (entities b) k = true -> Py.smem (entities b') k = true) /\
  (forall k, Py.smem (g_nodes b) k = true -> Py.smem (g_nodes b') k = true).

End GraphOps.

(* ------------------------------------------------------------------ *)
(** ** nl2sparql/utils.py: the class and property helpers *)

Module UtilsOps.

Import NL.
Local Open Scope string_scope.
Local Open Scope nat_scope.

(** Every character of [w] is whitespace; the empty string qualifies. *)
Definition all_space (w : string) : bool := forallb Py.is_space (list_ascii_of_string w).

(** [_verify_class_has_instances] *)
Definition class_instances_query (class_uri : string) : string := "
    ASK {
        ?s rdf:type " ++ class_uri ++ " .
    }
    ".

Definition _verify_class_has_instances (class_uri : string) : M bool :=
  try_except
    (let* results := execute_query (Prefixes.prefixes ++ class_instances_query class_uri) in
     ret (match q_boolean results with Some v => v | None => false end))
    (fun _ => ret true).

(** [_get_class_properties_ont] *)
Definition class_properties_query (class_uri property_type : string) : string := "
    SELECT DISTINCT ?property
    WHERE {
        ?property rdf:type " ++ property_type ++ " ;
                  rdfs:domain " ++ class_uri ++ " .
    }
    ".

(** The property URIs of the rows, each through [uri_to_prefixed]. *)
Definition prefixed_properties (rows : list binding) : M (list string) :=
  mapM (fun r => let* v := row_value r "property" in ret (Prefixes.uri_to_prefixed v)) rows.

Definition _get_class_properties_ont (class_uri property_type : string) : M (list string) :=
  let* results := execute_query (Prefixes.prefixes ++ class_properties_query class_uri property_type) in
  let* rows := get_bindings results in
  prefixed_properties rows.

(** [_verify_properties_batch] (the warning is not modelled). *)
Definition verify_properties_query (class_uri : string) (properties : list string) : string :=
  let values_clause := String.concat " " (map (fun p => "(" ++ p ++ ")") properties) in
  "
    SELECT DISTINCT ?property WHERE {
        VALUES (?property) { " ++ values_clause ++ " }
        ?s rdf:type " ++ class_uri ++ " ;
           ?property ?o .
    }
    ".

Definition _verify_properties_batch (class_uri : string) (properties : list string)
  : M (list string) :=
  match properties with
  | [] => ret []
  | _ =>
    try_except
      (let* results := execute_query (Prefixes.prefixes ++ verify_properties_query class_uri properties) in
       let* rows := get_bindings results in
       prefixed_properties rows)
      (fun _ => ret properties)
  end.

(** [_get_class_properties]; the dict [{"data": ..., "object": ...}] is
    the pair [(data, object)]. *)
Definition _get_class_properties (class_uri : string) (verify : bool)
  : M (list string * list string) :=
  let* data_props := _get_class_properties_ont class_uri "owl:DatatypeProperty" in
  let* object_props := _get_class_properties_ont class_uri "owl:ObjectProperty" in
  if negb verify then ret (firstn 20 data_props, firstn 20 object_props)
  else
    let* verified_data := _verify_properties_batch class_uri (firstn 20 data_props) in
    let* verified_object := _verify_properties_batch class_uri (firstn 20 object_props) in
    ret (verified_data, verified_object).

(** [_get_common_properties] *)
Definition exclusion_filters : string :=
  String.concat " && "
    (map (fun u => "!STRSTARTS(STR(?property), " ++ Py.dq ++ u ++ Py.dq ++ ")") EXCLUDED_NAMESPACES).

Definition common_properties_query (entity1 entity2 : string) (limit : Z) : string := "
    SELECT DISTINCT ?property WHERE {
        " ++ entity1 ++ " ?property ?val1 .
        " ++ entity2 ++ " ?property ?val2 .
        FILTER(" ++ exclusion_filters ++ ")
    } LIMIT " ++ Z_to_string limit ++ "
    ".

Definition _get_common_properties (entity_uris : list string) (limit : Z) : M (list string) :=
  match entity_uris with
  | entity1 :: entity2 :: _ =>
    let* results := execute_query (Prefixes.prefixes ++ common_properties_query entity1 entity2 limit) in
    let* rows := get_bindings results in
    prefixed_properties rows
  | _ => ret []
  end.

End UtilsOps.

(* ------------------------------------------------------------------ *)
(** ** nl2sparql/queries/relationship.py *)

Module Relationship.

Import NL Queries.
Local Open Scope string_scope.

Definition relationship_query (entity1 entity2 : string) : string := "
    SELECT ?predicate ?direction WHERE {
        {
            " ++ entity1 ++ " ?predicate " ++ entity2 ++ " .
            BIND(" ++ Py.dq ++ "forward" ++ Py.dq ++ " AS ?direction)
        }
        UNION
        {
            " ++ entity2 ++ " ?predicate " ++ entity1 ++ " .
            BIND(" ++ Py.dq ++ "reverse" ++ Py.dq ++ " AS ?direction)
        }
    }
    ".

(** [generate_relationship_query(prompt)] *)
Definition generate_relationship_query (prompt : string) : M answer :=
  let* entities := _get_entities prompt in
  match entities with
  | (_, entity1) :: (_, entity2) :: _ =>
    let query := relationship_query entity1 entity2 in
    let* results := execute_query (Prefixes.prefixes ++ query) in
    ret (Some query, Some results)
  | _ => ret (None, None)
  end.

(** [ev] is a call to the chat endpoint. *)
Definition is_llm_event (ev : event) : bool :=
  match ev with EvLLM _ _ _ => true | _ => false end.

End Relationship.

(* ------------------------------------------------------------------ *)
(** ** Concrete inputs used by the properties below *)

Module Samples.

Import Builder.
Local Open Scope string_scope.

Definition uri_value (u : string) : rdf_value := mk_value (Some "uri") (Some u).
Definition literal_value (v : string) : rdf_value := mk_value (Some "literal") (Some v).

Definition select_result (rows : list binding) : qresult :=
  mk_qresult (Some (mk_results (Some rows))) None.

Definition q_song_class : string :=
  "SELECT ?s ?l WHERE { ?s a dbo:Song . ?s rdfs:label ?l }".

Definition q_song_label : string :=
  "SELECT ?song ?songName WHERE { ?song rdfs:label ?songName }".

Definition r_song : qresult :=
  select_result [ [("song", uri_value "http://dbpedia.org/resource/X");
                   ("songName", literal_value "X Song")] ].




(** Environments of the external services. *)
Definition env_no_entities : NL.env :=
  NL.mk_env (fun _ => Some "key") (fun _ => Some (200%Z, []))
    (fun _ _ _ => Some "DEFINITION") (fun _ => None).

Definition env_no_properties : NL.env :=
  NL.mk_env (fun _ => Some "key")
    (fun _ => Some (200%Z, [("Obama", "http://dbpedia.org/resource/Barack_Obama")]))
    (fun _ _ _ => Some "FACT_LOOKUP") (fun _ => Some (select_result [])).

Definition env_classes_unverified : NL.env :=
  NL.mk_env (fun _ => Some "key") (fun _ => Some (200%Z, []))
    (fun _ _ _ => Some "dbo:City dbo:Place") (fun _ => None).

Definition ask_false : qresult := mk_qresult None (Some false).

(** The model writes an ASK query, answered [{boolean: false}]; the
    property lookup of the entity finds one property. *)
Definition env_ask : NL.env :=
  NL.mk_env (fun _ => Some "key")
    (fun _ => Some (200%Z, [("X", "http://dbpedia.org/resource/X")]))
    (fun _ _ _ => Some "ASK { dbr:X ?p ?o }")
    (fun q => if Py.contains "ASK {" q then Some ask_false
              else Some (select_result
                           [ [("property", uri_value "http://dbpedia.org/ontology/birthDate");
                              ("value", literal_value "1961")] ])).

(** Stand-ins for the generators whose bodies are not modelled. *)
Definition no_gen2 : string -> string -> NL.M Queries.answer := fun _ _ => NL.ret (None, None).
Definition no_gen1 : string -> NL.M Queries.answer := fun _ => NL.ret (None, None).

(** [xs] is a subsequence of [ys]: obtained by deleting elements, the
    order kept. *)
Inductive subseq {A : Type} : list A -> list A -> Prop :=
| subseq_nil : subseq [] []
| subseq_skip : forall x xs ys, subseq xs ys -> subseq xs (x :: ys)
| subseq_keep : forall x xs ys, subseq xs ys -> subseq (x :: xs) (x :: ys).


(** The WHERE block of [q_song_class], without its surrounding spaces. *)
Definition song_where : string := "?s a dbo:Song . ?s rdfs:label ?l".

End Samples.

(* ------------------------------------------------------------------ *)
(** ** Auxiliary notions for the properties *)

(** A relational reading of the matcher [mt], and two syntactic checks
    on a pattern: whether its matches start, and end, on a character that
    is not whitespace. *)
Module RegexSem.

Import Regex.
Local Open Scope nat_scope.

Section StarLoop.
Context {R : Type} (icase greedy : bool) (r1 : regex) (k : list ascii -> caps -> option R).

(** The repetition loop of [mt] on [RStar greedy r1], with its fuel. *)
Fixpoint star_loop (fuel : nat) (s : list ascii) (cs : caps) : option R :=
  match fuel with
  | O => k s cs
  | S f =>
      if greedy then
        match mt icase r1 s cs
                (fun s' cs' => if length s' <? length s then star_loop f s' cs' else None) with
        | Some x => Some x
        | None => k s cs
        end
      else
        match k s cs with
        | Some x => Some x
        | None =>
            mt icase r1 s cs
              (fun s' cs' => if length s' <? length s then star_loop f s' cs' else None)
        end
  end.
End StarLoop.

(** [mrel icase r s cs s' cs']: [r] matches a prefix of [s], leaving [s'],
    and takes the captures from [cs] to [cs']. *)
Inductive mrel (icase : bool) : regex -> list ascii -> caps -> list ascii -> caps -> Prop :=
| mr_eps : forall s cs, mrel icase REps s cs s cs
| mr_char : forall p c s cs, char_ok icase p c = true -> mrel icase (RChar p) (c :: s) cs s cs
| mr_seq : forall r1 r2 s cs s1 cs1 s2 cs2,
    mrel icase r1 s cs s1 cs1 -> mrel icase r2 s1 cs1 s2 cs2 -> mrel icase (RSeq r1 r2) s cs s2 cs2
| mr_alt_l : forall r1 r2 s cs s' cs', mrel icase r1 s cs s' cs' -> mrel icase (RAlt r1 r2) s cs s' cs'
| mr_alt_r : forall r1 r2 s cs s' cs', mrel icase r2 s cs s' cs' -> mrel icase (RAlt r1 r2) s cs s' cs'
| mr_star_nil : forall g r s cs, mrel icase (RStar g r) s cs s cs
| mr_star_cons : forall g r s cs s1 cs1 s2 cs2,
    mrel icase r s cs s1 cs1 -> length s1 < length s ->
    mrel icase (RStar g r) s1 cs1 s2 cs2 -> mrel icase (RStar g r) s cs s2 cs2
| mr_group : forall n r s cs s' cs',
    mrel icase r s cs s' cs' ->
    mrel icase (RGroup n r) s cs s' ((n, firstn (length s - length s') s) :: cs').

(** The whitespace characters. *)
Definition ws_chars : list ascii := map ascii_of_nat [9; 10; 11; 12; 13; 28; 29; 30; 31; 32].

(** The class [p] accepts no whitespace character. *)
Definition no_ws (icase : bool) (p : ascii -> bool) : bool :=
  forallb (fun c => negb (char_ok icase p c)) ws_chars.

(** [(a, b)]: [a] when every match of [r] consumes a character and the
    last one is not whitespace; [b] when every match consumes nothing or
    ends with a character that is not whitespace. *)
Fixpoint ends_solid (icase : bool) (r : regex) : bool * bool :=
  match r with
  | REps => (false, true)
  | RChar p => (no_ws icase p, no_ws icase p)
  | RSeq r1 r2 =>
      let '(a1, b1) := ends_solid icase r1 in
      let '(a2, b2) := ends_solid icase r2 in
      (a2 || (a1 && b2), a2 || (b1 && b2))
  | RAlt r1 r2 =>
      let '(a1, b1) := ends_solid icase r1 in
      let '(a2, b2) := ends_solid icase r2 in
      (a1 && a2, b1 && b2)
  | RStar _ r1 => (false, snd (ends_solid icase r1))
  | RGroup _ r1 => ends_solid icase r1
  end.

(** The same for the first character of a match. *)
Fixpoint starts_solid (icase : bool) (r : regex) : bool * bool :=
  match r with
  | REps => (false, true)
  | RChar p => (no_ws icase p, no_ws icase p)
  | RSeq r1 r2 =>
      let '(a1, b1) := starts_solid icase r1 in
      let '(a2, b2) := starts_solid icase r2 in
      (a1 || (b1 && a2), a1 || (b1 && b2))
  | RAlt r1 r2 =>
      let '(a1, b1) := starts_solid icase r1 in
      let '(a2, b2) := starts_solid icase r2 in
      (a1 && a2, b1 && b2)
  | RStar _ r1 => (false, snd (starts_solid icase r1))
  | RGroup _ r1 => starts_solid icase r1
  end.

(** [y] is a proper suffix of [t]. *)
Definition strict_suffix (y t : list ascii) : Prop := exists pre, pre <> [] /\ t = app pre y.

(** Every character of [l] is whitespace. *)
Definition spaces (l : list ascii) : Prop := Forall (fun c => Py.is_space c = true) l.

End RegexSem.

(** The edges a row of results may give rise to: from a resource bound
    to an album, movie, film, book or song variable of the row, an edge of
    one of the four kinds the builder adds, or a title/label/name edge to
    a literal node of that row. *)
Module RowEdges.

Import Sparql Builder.
Local Open Scope string_scope.


(** The outcome [o] of a step from [b] extends the edge list of [b]
    with edges satisfying [P] only. *)
Definition adds_only (P : string * string * string -> Prop) (b : builder) (o : outcome) : Prop :=
  exists added, edge_list (GraphOps.outcome_state o) = app (edge_list b) added /\ Forall P added.

End RowEdges.

Module Traces.

Import NL.

(** [m] only appends events to the trace, and what it appends and returns
    does not depend on the trace it starts from. *)
Definition appends {A} (m : M A) : Prop :=
  forall en, exists d r, forall tr, m en tr = (app tr d, r).

End Traces.

(* ================================================================== *)
(** * Properties *)

(** ** Namespace table (const/prefixes.py) *)

Module PrefixFacts.

Import Prefixes.
Local Open Scope string_scope.
Local Open Scope nat_scope.

Lemma prefix_app : forall a s, String.prefix a s = true -> exists rest, s = a ++ rest.
Proof.
  induction a as [|c a IH]; intros s H.
  - exists s. reflexivity.
  - destruct s as [|c' s]; simpl in H; [discriminate|].
    destruct (ascii_dec c c') as [->|]; [|discriminate].
    destruct (IH s H) as [rest ->]. exists rest. reflexivity.
Qed.

Lemma substring_all : forall s, substring 0 (String.length s) s = s.
Proof. induction s; simpl; congruence. Qed.

Lemma substring_after : forall a rest,
  substring (String.length a) (String.length (a ++ rest) - String.length a) (a ++ rest) = rest.
Proof.
  induction a as [|c a IH]; intros rest.
  - simpl. rewrite Nat.sub_0_r. apply substring_all.
  - simpl. apply IH.
Qed.

Lemma split_first_app : forall p rest,
  Py.split_first ":" p = None ->
  Py.split_first ":" (p ++ String ":" rest) = Some (p, rest).
Proof.
  induction p as [|c p IH]; intros rest H.
  - reflexivity.
  - simpl in *. destruct (Ascii.eqb c ":"); [discriminate|].
    destruct (Py.split_first ":" p) as [[x y]|] eqn:E; [discriminate|].
    rewrite (IH rest eq_refl). reflexivity.
Qed.

(** The reverse table, computed. *)
Lemma namespaces_rev_swap :
  namespaces_rev = map (fun '(k, v) => (v, k)) namespaces.
Proof. vm_compute. reflexivity. Qed.

(** Every prefix of the reverse table is colon-free and maps back to its
    namespace in [namespaces]. *)
Lemma namespaces_rev_inverse :
  Forall (fun '(full, p) => Py.split_first ":" p = None /\ Py.sget namespaces p = Some full)
    namespaces_rev.
Proof.
  rewrite namespaces_rev_swap.
  repeat constructor.
Qed.

Lemma loop_first_match :
  forall tbl uri i full p,
    nth_error tbl i = Some (full, p) ->
    String.prefix full uri = true ->
    (forall j full' p', j < i -> nth_error tbl j = Some (full', p') ->
                        String.prefix full' uri = false) ->
    uri_to_prefixed_loop tbl uri =
      p ++ ":" ++ substring (String.length full) (String.length uri - String.length full) uri.
Proof.
  induction tbl as [|[f0 p0] tbl IH]; intros uri i full p Hi Hpre Hbefore.
  - destruct i; discriminate.
  - destruct i as [|i].
    + simpl in Hi. injection Hi as -> ->. simpl. rewrite Hpre. reflexivity.
    + simpl. rewrite (Hbefore 0 f0 p0 ltac:(lia) eq_refl).
      apply (IH uri i full p Hi Hpre).
      intros j f' p' Hj Hn. apply (Hbefore (S j) f' p'); [lia | exact Hn].
Qed.

Lemma loop_some_match :
  forall tbl uri,
    (exists full p, In (full, p) tbl /\ String.prefix full uri = true) ->
    exists full p, In (full, p) tbl /\ String.prefix full uri = true /\
      uri_to_prefixed_loop tbl uri =
        p ++ ":" ++ substring (String.length full) (String.length uri - String.length full) uri.
Proof.
  induction tbl as [|[f0 p0] tbl IH]; intros uri [full [p [Hin Hpre]]].
  - destruct Hin.
  - simpl. destruct (String.prefix f0 uri) eqn:E.
    + exists f0, p0. split; [left; reflexivity|]. split; [exact E | reflexivity].
    + destruct Hin as [Heq|Hin].
      * injection Heq as -> ->. congruence.
      * destruct (IH uri (ex_intro _ full (ex_intro _ p (conj Hin Hpre))))
          as [f1 [p1 [H1 [H2 H3]]]].
        exists f1, p1. split; [right; exact H1|]. split; assumption.
Qed.

Lemma loop_no_match :
  forall tbl uri,
    (forall full p, In (full, p) tbl -> String.prefix full uri = false) ->
    uri_to_prefixed_loop tbl uri = uri.
Proof.
  induction tbl as [|[f0 p0] tbl IH]; intros uri H; simpl.
  - reflexivity.
  - rewrite (H f0 p0 (or_introl eq_refl)).
    apply IH. intros full p Hin. apply (H full p (or_intror Hin)).
Qed.

End PrefixFacts.

Import Prefixes PrefixFacts.
Open Scope string_scope.
Open Scope nat_scope.

(** C7 (counterexample).  [http://dbpedia.org/resource/Category:Foo]
    starts with the namespaces of both [dbr] and [dbc], the one of [dbc]
    being the longer, yet [uri_to_prefixed] renders it with [dbr]. *)
Lemma uri_to_prefixed_not_longest_match :
  String.prefix "http://dbpedia.org/resource/"
    "http://dbpedia.org/resource/Category:Foo" = true /\
  String.prefix "http://dbpedia.org/resource/Category:"
    "http://dbpedia.org/resource/Category:Foo" = true /\
  Py.sget namespaces "dbc" = Some "http://dbpedia.org/resource/Category:" /\
  uri_to_prefixed "http://dbpedia.org/resource/Category:Foo" = "dbr:Category:Foo" /\
  uri_to_prefixed "http://dbpedia.org/resource/Category:Foo" <> "dbc:Foo".
Proof. vm_compute. repeat split; discriminate. Qed.

(** C7 (amended).  [uri_to_prefixed] uses the FIRST entry of the
    namespace table, in declaration order, whose namespace URI the URI
    starts with, and appends the rest of the URI to that prefix. *)
Theorem uri_to_prefixed_first_match :
  forall uri i p full,
    nth_error namespaces i = Some (p, full) ->
    String.prefix full uri = true ->
    (forall j p' full', j < i -> nth_error namespaces j = Some (p', full') ->
                        String.prefix full' uri = false) ->
    uri_to_prefixed uri =
      (p ++ ":" ++ substring (String.length full) (String.length uri - String.length full) uri)%string.
Proof.
  intros uri i p full Hi Hpre Hbefore.
  unfold uri_to_prefixed. rewrite namespaces_rev_swap.
  apply (loop_first_match _ uri i full p).
  - rewrite nth_error_map, Hi. reflexivity.
  - exact Hpre.
  - intros j f' p' Hj Hn. rewrite nth_error_map in Hn.
    destruct (nth_error namespaces j) as [[k v]|] eqn:E; [|discriminate].
    injection Hn as <- <-. exact (Hbefore j k v Hj E).
Qed.

Lemma uri_to_prefixed_first_match_witness :
  uri_to_prefixed "http://dbpedia.org/resource/Category:Foo" = "dbr:Category:Foo".
Proof.
  rewrite (uri_to_prefixed_first_match "http://dbpedia.org/resource/Category:Foo" 4
             "dbr" "http://dbpedia.org/resource/").
  - reflexivity.
  - reflexivity.
  - reflexivity.
  - intros j p' full' Hj Hn.
    destruct j as [|[|[|[|j]]]]; try lia; simpl in Hn; injection Hn as <- <-; reflexivity.
Defined.

(** C8.  For a URI under one of the namespaces of the table,
    [prefixed_to_uri (uri_to_prefixed uri) = uri]; a URI under none of
    them is returned unchanged by [uri_to_prefixed]. *)
Theorem uri_prefixed_roundtrip :
  (forall uri,
     (exists p full, In (p, full) namespaces /\ String.prefix full uri = true) ->
     prefixed_to_uri (uri_to_prefixed uri) = uri) /\
  (forall uri,
     (forall p full, In (p, full) namespaces -> String.prefix full uri = false) ->
     uri_to_prefixed uri = uri).
Proof.
  split.
  - intros uri [p [full [Hin Hpre]]].
    unfold uri_to_prefixed.
    destruct (loop_some_match namespaces_rev uri) as [f1 [p1 [Hin1 [Hpre1 ->]]]].
    { exists full, p. split; [|exact Hpre].
      rewrite namespaces_rev_swap. apply in_map_iff. exists (p, full). split; [reflexivity | exact Hin]. }
    pose proof (proj1 (Forall_forall _ _) namespaces_rev_inverse _ Hin1) as [Hcolon Hget].
    unfold prefixed_to_uri. cbn [String.append]. rewrite (split_first_app p1 _ Hcolon), Hget.
    destruct (prefix_app f1 uri Hpre1) as [rest ->].
    rewrite substring_after. reflexivity.
  - intros uri H. unfold uri_to_prefixed. apply loop_no_match.
    intros full p Hin. rewrite namespaces_rev_swap in Hin.
    apply in_map_iff in Hin as [[k v] [Heq Hin]]. injection Heq as <- <-.
    exact (H k v Hin).
Qed.

Lemma uri_prefixed_roundtrip_witness :
  prefixed_to_uri (uri_to_prefixed "http://dbpedia.org/ontology/birthDate")
    = "http://dbpedia.org/ontology/birthDate" /\
  uri_to_prefixed "http://example.org/x" = "http://example.org/x".
Proof.
  split.
  - apply (proj1 uri_prefixed_roundtrip).
    exists "dbo", "http://dbpedia.org/ontology/". split; [simpl; tauto | reflexivity].
  - apply (proj2 uri_prefixed_roundtrip).
    intros p full Hin. simpl in Hin.
    repeat (destruct Hin as [Hin|Hin]; [injection Hin as <- <-; reflexivity|]). destruct Hin.
Defined.

(** ** The SPARQL pattern parser and the graph builder *)

Import Builder Samples.

Lemma in_filter_pred : forall {A} (f : A -> bool) (l : list A) x,
  In x (filter f l) -> f x = true.
Proof. intros A f l x H. apply filter_In in H. tauto. Qed.

Lemma slice_single : forall {A} (x : A) m, (1 <= m)%Z -> slice_upto [x] m = [x].
Proof.
  intros A x m Hm. unfold slice_upto. destruct (Z.leb_spec 0 m); [|lia].
  destruct (Z.to_nat m) eqn:E; [lia|]. simpl. rewrite firstn_nil. reflexivity.
Qed.

(** C6 (counterexample).  On [SELECT ?s ?l WHERE { ?s a dbo:Song . ?s
    rdfs:label ?l }] the parser returns the class entry, but its list of
    triples holds the label triple only: there are not two triples and
    none has predicate [rdf:type]. *)
Lemma parse_type_triple_dropped :
  classes (parse_sparql_query q_song_class) = [("?s", "dbo:Song")] /\
  properties (parse_sparql_query q_song_class) = [("?s", "rdfs:label", "?l")] /\
  ~ (2 <= length (properties (parse_sparql_query q_song_class)) /\
     exists s o, In (s, "rdf:type", o) (properties (parse_sparql_query q_song_class))).
Proof.
  vm_compute. split; [reflexivity|]. split; [reflexivity|].
  intros [H _]. lia.
Qed.

(** Matching a pattern whose matches start and end on a character that is
    not whitespace is insensitive to whitespace around the subject. *)
Module RegexFacts.

Import Regex RegexSem.
Local Open Scope nat_scope.

Lemma mt_star : forall {R} icase g r1 s cs (k : list ascii -> caps -> option R),
  mt icase (RStar g r1) s cs k = star_loop icase g r1 k (S (length s)) s cs.
Proof. reflexivity. Qed.

Lemma mrel_suffix : forall icase r s cs s' cs',
  mrel icase r s cs s' cs' -> exists pre, s = app pre s'.
Proof.
  intros icase r s cs s' cs' H. induction H.
  - exists []. reflexivity.
  - exists [c]. reflexivity.
  - destruct IHmrel1 as [p1 E1], IHmrel2 as [p2 E2]. exists (app p1 p2).
    rewrite E1, E2, app_assoc. reflexivity.
  - exact IHmrel.
  - exact IHmrel.
  - exists []. reflexivity.
  - destruct IHmrel1 as [p1 E1], IHmrel2 as [p2 E2]. exists (app p1 p2).
    rewrite E1, E2, app_assoc. reflexivity.
  - exact IHmrel.
Qed.

Lemma star_loop_sound : forall {R} icase g r1 (k : list ascii -> caps -> option R),
  (forall s cs (k' : list ascii -> caps -> option R) x, mt icase r1 s cs k' = Some x ->
     exists s' cs', mrel icase r1 s cs s' cs' /\ k' s' cs' = Some x) ->
  forall f s cs x, star_loop icase g r1 k f s cs = Some x ->
    exists s' cs', mrel icase (RStar g r1) s cs s' cs' /\ k s' cs' = Some x.
Proof.
  intros R icase g r1 k IH1 f. induction f as [|f IHf]; intros s cs x H; simpl in H.
  - exists s, cs. split; [constructor | exact H].
  - assert (Hit : mt icase r1 s cs
                    (fun s' cs' => if length s' <? length s then star_loop icase g r1 k f s' cs' else None)
                  = Some x ->
                  exists s' cs', mrel icase (RStar g r1) s cs s' cs' /\ k s' cs' = Some x).
    { intros Hm. destruct (IH1 _ _ _ _ Hm) as [s1 [cs1 [Hr Hk]]].
      destruct (length s1 <? length s) eqn:Hl; [|discriminate].
      apply Nat.ltb_lt in Hl.
      destruct (IHf _ _ _ Hk) as [s2 [cs2 [Hr2 Hk2]]].
      exists s2, cs2. split; [econstructor; eassumption | exact Hk2]. }
    destruct g.
    + destruct (mt icase r1 s cs _) eqn:Em.
      * injection H as <-. exact (Hit eq_refl).
      * exists s, cs. split; [constructor | exact H].
    + destruct (k s cs) eqn:Ek.
      * injection H as <-. exists s, cs. split; [constructor | exact Ek].
      * exact (Hit H).
Qed.

Lemma mt_sound : forall {R} icase r s cs (k : list ascii -> caps -> option R) x,
  mt icase r s cs k = Some x -> exists s' cs', mrel icase r s cs s' cs' /\ k s' cs' = Some x.
Proof.
  intros R icase r. induction r as [| p | r1 IH1 r2 IH2 | r1 IH1 r2 IH2 | g r1 IH1 | n r1 IH1];
    intros s cs k x H.
  - exists s, cs. split; [constructor | exact H].
  - destruct s as [|c s]; [discriminate|]. simpl in H.
    destruct (char_ok icase p c) eqn:Ec; [|discriminate].
    exists s, cs. split; [constructor; exact Ec | exact H].
  - simpl in H. destruct (IH1 _ _ _ _ H) as [s1 [cs1 [Hr1 Hk1]]].
    destruct (IH2 _ _ _ _ Hk1) as [s2 [cs2 [Hr2 Hk2]]].
    exists s2, cs2. split; [econstructor; eassumption | exact Hk2].
  - simpl in H. destruct (mt icase r1 s cs k) eqn:E1.
    + injection H as <-. destruct (IH1 _ _ _ _ E1) as [s' [cs' [Hr Hk]]].
      exists s', cs'. split; [apply mr_alt_l; exact Hr | exact Hk].
    + destruct (IH2 _ _ _ _ H) as [s' [cs' [Hr Hk]]].
      exists s', cs'. split; [apply mr_alt_r; exact Hr | exact Hk].
  - rewrite mt_star in H. exact (star_loop_sound icase g r1 k IH1 _ _ _ _ H).
  - simpl in H. destruct (IH1 _ _ _ _ H) as [s' [cs' [Hr Hk]]].
    exists s', ((n, firstn (length s - length s') s) :: cs'). split; [constructor; exact Hr | exact Hk].
Qed.

Lemma mt_fail : forall {R} icase r s cs (k : list ascii -> caps -> option R),
  (forall s' cs', mrel icase r s cs s' cs' -> k s' cs' = None) -> mt icase r s cs k = None.
Proof.
  intros R icase r s cs k H. destruct (mt icase r s cs k) eqn:E; [|reflexivity].
  destruct (mt_sound _ _ _ _ _ _ E) as [s' [cs' [Hr Hk]]]. rewrite (H _ _ Hr) in Hk. discriminate.
Qed.

Lemma star_loop_fail : forall {R} icase g r1 (k : list ascii -> caps -> option R) f s cs,
  (forall s' cs', mrel icase (RStar g r1) s cs s' cs' -> k s' cs' = None) ->
  star_loop icase g r1 k f s cs = None.
Proof.
  intros R icase g r1 k f s cs H. destruct (star_loop icase g r1 k f s cs) eqn:E; [|reflexivity].
  destruct (star_loop_sound icase g r1 k (fun s0 cs0 k0 x0 => mt_sound icase r1 s0 cs0 k0 x0) _ _ _ _ E)
    as [s' [cs' [Hr Hk]]].
  rewrite (H _ _ Hr) in Hk. discriminate.
Qed.

Lemma mt_ext : forall {R} icase r s cs (k1 k2 : list ascii -> caps -> option R),
  (forall s' cs', mrel icase r s cs s' cs' -> k1 s' cs' = k2 s' cs') ->
  mt icase r s cs k1 = mt icase r s cs k2.
Proof.
  intros R icase r. induction r as [| p | r1 IH1 r2 IH2 | r1 IH1 r2 IH2 | g r1 IH1 | n r1 IH1];
    intros s cs k1 k2 H.
  - apply H. constructor.
  - destruct s as [|c s]; [reflexivity|]. simpl.
    destruct (char_ok icase p c) eqn:Ec; [|reflexivity]. apply H. constructor. exact Ec.
  - simpl. apply IH1. intros s1 cs1 H1. apply IH2. intros s2 cs2 H2. apply H. econstructor; eassumption.
  - simpl. rewrite (IH1 s cs k1 k2), (IH2 s cs k1 k2); [reflexivity | |];
      intros s' cs' Hr; apply H; [apply mr_alt_r | apply mr_alt_l]; exact Hr.
  - rewrite !mt_star. generalize (S (length s)) as f. intros f. revert s cs H.
    induction f as [|f IHf]; intros s cs H; simpl.
    + apply H. constructor.
    + assert (Hm : mt icase r1 s cs
                     (fun s' cs' => if length s' <? length s then star_loop icase g r1 k1 f s' cs' else None) =
                   mt icase r1 s cs
                     (fun s' cs' => if length s' <? length s then star_loop icase g r1 k2 f s' cs' else None)).
      { apply IH1. intros s1 cs1 H1. destruct (length s1 <? length s) eqn:Hl; [|reflexivity].
        apply Nat.ltb_lt in Hl. apply IHf. intros s2 cs2 H2. apply H. econstructor; eassumption. }
      rewrite Hm, (H s cs (mr_star_nil _ _ _ _ _)). reflexivity.
  - simpl. apply IH1. intros s' cs' Hr. apply H. constructor. exact Hr.
Qed.

Lemma firstn_app_le : forall {A} n (l1 l2 : list A), n <= length l1 -> firstn n (app l1 l2) = firstn n l1.
Proof.
  intros A n l1 l2 H. rewrite firstn_app. replace (n - length l1) with 0 by lia.
  rewrite firstn_O, app_nil_r. reflexivity.
Qed.

Lemma group_cap_app : forall (s s' t : list ascii) pre, s = app pre s' ->
  firstn (length (app s t) - length (app s' t)) (app s t) = firstn (length s - length s') s.
Proof.
  intros s s' t pre E. rewrite !length_app.
  replace (length s + length t - (length s' + length t)) with (length s - length s') by lia.
  apply firstn_app_le. lia.
Qed.

Lemma mrel_app : forall icase r s cs s' cs' t,
  mrel icase r s cs s' cs' -> mrel icase r (app s t) cs (app s' t) cs'.
Proof.
  intros icase r s cs s' cs' t H. induction H.
  - constructor.
  - constructor. assumption.
  - econstructor; eassumption.
  - apply mr_alt_l. assumption.
  - apply mr_alt_r. assumption.
  - constructor.
  - econstructor; [eassumption | rewrite !length_app; lia | eassumption].
  - destruct (mrel_suffix _ _ _ _ _ _ H) as [pre E].
    rewrite <- (group_cap_app s s' t pre E). constructor. assumption.
Qed.

Definition strict_suffix (y t : list ascii) : Prop := exists pre, pre <> [] /\ t = app pre y.

Lemma strict_suffix_trans : forall y z t pre, strict_suffix z t -> z = app pre y -> strict_suffix y t.
Proof.
  intros y z t pre [p [Hp E]] Ez. exists (app p pre). split.
  - destruct p; [congruence | discriminate].
  - rewrite E, Ez, app_assoc. reflexivity.
Qed.

Lemma star_loop_app : forall {R} icase g r1 t (k : list ascii -> caps -> option R),
  (forall s cs (k0 : list ascii -> caps -> option R),
     (forall y cs', mrel icase r1 (app s t) cs y cs' -> strict_suffix y t -> k0 y cs' = None) ->
     mt icase r1 (app s t) cs k0 = mt icase r1 s cs (fun s' cs' => k0 (app s' t) cs')) ->
  forall fR fL s cs,
    length s < fR -> length (app s t) < fL ->
    (forall y cs', mrel icase (RStar g r1) (app s t) cs y cs' -> strict_suffix y t -> k y cs' = None) ->
    star_loop icase g r1 k fL (app s t) cs =
    star_loop icase g r1 (fun s' cs' => k (app s' t) cs') fR s cs.
Proof.
  intros R icase g r1 t k IH1 fR. induction fR as [|fr IHf]; intros fL s cs HR HL H; [lia|].
  destruct fL as [|fl]; [lia|]. rewrite length_app in HL. simpl.
  assert (Hm : mt icase r1 (app s t) cs
                 (fun s' cs' => if length s' <? length (app s t) then star_loop icase g r1 k fl s' cs' else None)
               = mt icase r1 s cs
                 (fun s' cs' => if length s' <? length s
                                then star_loop icase g r1 (fun s'' cs'' => k (app s'' t) cs'') fr s' cs'
                                else None)).
  { rewrite IH1.
    - apply mt_ext. intros s1 cs1 H1.
      rewrite !length_app.
      destruct (length s1 <? length s) eqn:Hl.
      + apply Nat.ltb_lt in Hl.
        replace (length s1 + length t <? length s + length t) with true by (symmetry; apply Nat.ltb_lt; lia).
        apply IHf; [lia | rewrite length_app; lia|].
        intros y cs' Hy Hs. apply H; [|exact Hs].
        econstructor; [apply mrel_app; exact H1 | rewrite !length_app; lia | exact Hy].
      + apply Nat.ltb_ge in Hl.
        replace (length s1 + length t <? length s + length t) with false by (symmetry; apply Nat.ltb_ge; lia).
        reflexivity.
    - intros y cs' Hy Hs. destruct (length y <? length (app s t)) eqn:Hl; [|reflexivity].
      apply Nat.ltb_lt in Hl. apply star_loop_fail. intros y2 cs2 H2.
      destruct (mrel_suffix _ _ _ _ _ _ H2) as [pre E].
      apply H; [econstructor; eassumption | exact (strict_suffix_trans _ _ _ _ Hs E)]. }
  rewrite Hm. reflexivity.
Qed.

Lemma mt_app : forall {R} icase r t s cs (k : list ascii -> caps -> option R),
  (forall y cs', mrel icase r (app s t) cs y cs' -> strict_suffix y t -> k y cs' = None) ->
  mt icase r (app s t) cs k = mt icase r s cs (fun s' cs' => k (app s' t) cs').
Proof.
  intros R icase r t. induction r as [| p | r1 IH1 r2 IH2 | r1 IH1 r2 IH2 | g r1 IH1 | n r1 IH1];
    intros s cs k H.
  - reflexivity.
  - destruct s as [|c s].
    + simpl. destruct t as [|c t]; [reflexivity|].
      destruct (char_ok icase p c) eqn:Ec; [|reflexivity].
      apply H; [constructor; exact Ec | exists [c]; split; [discriminate | reflexivity]].
    + reflexivity.
  - simpl. rewrite IH1.
    + apply mt_ext. intros s1 cs1 H1. apply IH2.
      intros y cs' Hy Hs. apply H; [|exact Hs]. econstructor; [apply mrel_app; exact H1 | exact Hy].
    + intros y cs1 Hy Hs. apply mt_fail. intros y2 cs2 H2.
      destruct (mrel_suffix _ _ _ _ _ _ H2) as [pre E].
      apply H; [econstructor; eassumption | exact (strict_suffix_trans _ _ _ _ Hs E)].
  - simpl. rewrite IH1, IH2; [reflexivity | |];
      intros y cs' Hy Hs; apply H; [apply mr_alt_r | | apply mr_alt_l |]; assumption.
  - rewrite !mt_star. apply (star_loop_app icase g r1 t k (fun s0 cs0 k0 H0 => IH1 s0 cs0 k0 H0));
      [lia | lia | exact H].
  - simpl. rewrite IH1.
    + apply mt_ext. intros s1 cs1 H1. destruct (mrel_suffix _ _ _ _ _ _ H1) as [pre E].
      rewrite (group_cap_app s s1 t pre E). reflexivity.
    + intros y cs' Hy Hs. apply H; [|exact Hs]. constructor. exact Hy.
Qed.

Lemma mt_map : forall {R1 R2} (f : R1 -> R2) icase r s cs (k : list ascii -> caps -> option R1),
  mt icase r s cs (fun a b => option_map f (k a b)) = option_map f (mt icase r s cs k).
Proof.
  intros R1 R2 f icase r. induction r as [| p | r1 IH1 r2 IH2 | r1 IH1 r2 IH2 | g r1 IH1 | n r1 IH1];
    intros s cs k.
  - reflexivity.
  - destruct s as [|c s]; [reflexivity|]. simpl. destruct (char_ok icase p c); reflexivity.
  - simpl. rewrite <- IH1. apply mt_ext. intros s1 cs1 _. apply IH2.
  - simpl. rewrite IH1, IH2. destruct (mt icase r1 s cs k); reflexivity.
  - rewrite !mt_star. generalize (S (length s)) as fu. intros fu. revert s cs.
    induction fu as [|fu IHf]; intros s cs; simpl; [reflexivity|].
    assert (Hm : mt icase r1 s cs
                   (fun s' cs' => if length s' <? length s
                                  then star_loop icase g r1 (fun a b => option_map f (k a b)) fu s' cs'
                                  else None) =
                 option_map f (mt icase r1 s cs
                   (fun s' cs' => if length s' <? length s then star_loop icase g r1 k fu s' cs' else None))).
    { rewrite <- IH1. apply mt_ext. intros s1 cs1 _.
      destruct (length s1 <? length s); [apply IHf | reflexivity]. }
    rewrite Hm.
    destruct (mt icase r1 s cs (fun s' cs' => if length s' <? length s
                                              then star_loop icase g r1 k fu s' cs' else None));
      destruct g; destruct (k s cs); reflexivity.
  - simpl. rewrite <- IH1. reflexivity.
Qed.

Lemma is_space_in : forall c, Py.is_space c = true -> In c ws_chars.
Proof.
  intros c H. unfold ws_chars. rewrite in_map_iff.
  exists (nat_of_ascii c). split; [apply ascii_nat_embedding|].
  unfold Py.is_space in H.
  repeat rewrite orb_true_iff in H. repeat rewrite andb_true_iff in H.
  repeat rewrite Nat.leb_le in H. rewrite Nat.eqb_eq in H.
  simpl. lia.
Qed.
Lemma no_ws_space : forall icase p c,
  no_ws icase p = true -> char_ok icase p c = true -> Py.is_space c = false.
Proof.
  intros icase p c H Hc.
  destruct (Py.is_space c) eqn:Es; [|reflexivity].
  pose proof (proj1 (forallb_forall _ _) H c (is_space_in c Es)) as Hn.
  cbv beta in Hn. rewrite Hc in Hn. discriminate Hn.
Qed.

Lemma ends_solid_sem : forall icase r x cs y cs', mrel icase r x cs y cs' ->
  (fst (ends_solid icase r) = true ->
     exists pre c, x = app pre (c :: y) /\ Py.is_space c = false) /\
  (snd (ends_solid icase r) = true ->
     x = y \/ exists pre c, x = app pre (c :: y) /\ Py.is_space c = false).
Proof.
  intros icase r x cs y cs' H. induction H as
    [s cs | p c s cs Hc | r1 r2 s cs s1 cs1 s2 cs2 H1 IH1 H2 IH2
    | r1 r2 s cs s' cs' H1 IH1 | r1 r2 s cs s' cs' H1 IH1 | g r s cs
    | g r s cs s1 cs1 s2 cs2 H1 IH1 Hl H2 IH2 | n r s cs s' cs' H1 IH1].
  - split; [discriminate | intros _; left; reflexivity].
  - cbn [ends_solid fst snd].
    split; intros Hn; [|right]; exists [], c; split; try reflexivity; exact (no_ws_space _ _ _ Hn Hc).
  - cbn [ends_solid]. destruct IH1 as [IH1a IH1b], IH2 as [IH2a IH2b].
    destruct (ends_solid icase r1) as [a1 b1], (ends_solid icase r2) as [a2 b2]; cbn [fst snd] in *.
    assert (Ha : a2 = true \/ (a1 = true /\ b2 = true) ->
                 exists pre c, s = app pre (c :: s2) /\ Py.is_space c = false).
    { intros [Ha2 | [Ha1 Hb2]].
      - destruct (IH2a Ha2) as [pre [c [E Hs]]]. destruct (mrel_suffix _ _ _ _ _ _ H1) as [p1 E1].
        exists (app p1 pre), c. split; [rewrite E1, E, app_assoc; reflexivity | exact Hs].
      - destruct (IH1a Ha1) as [pre [c [E Hs]]]. destruct (IH2b Hb2) as [<- | [pre2 [c2 [E2 Hs2]]]].
        + exists pre, c. split; assumption.
        + destruct (mrel_suffix _ _ _ _ _ _ H1) as [p1 E1].
          exists (app p1 pre2), c2. split; [rewrite E1, E2, app_assoc; reflexivity | exact Hs2]. }
    split.
    + intros Hx. apply Ha. destruct a2; [left; reflexivity|]. destruct a1, b2; cbn in Hx; try discriminate.
      right; split; reflexivity.
    + intros Hx. destruct a2; [right; apply Ha; left; reflexivity|].
      destruct b1, b2; cbn in Hx; try discriminate.
      destruct (IH1b eq_refl) as [<- | [pre [c [E Hs]]]].
      * destruct (IH2b eq_refl) as [-> | Hr]; [left; reflexivity | right; exact Hr].
      * destruct (IH2b eq_refl) as [<- | [pre2 [c2 [E2 Hs2]]]].
        -- right. exists pre, c. split; assumption.
        -- right. destruct (mrel_suffix _ _ _ _ _ _ H1) as [p1 E1].
           exists (app p1 pre2), c2. split; [rewrite E1, E2, app_assoc; reflexivity | exact Hs2].
  - cbn [ends_solid]. destruct IH1 as [IH1a IH1b].
    destruct (ends_solid icase r1) as [a1 b1], (ends_solid icase r2) as [a2 b2]; cbn [fst snd] in *.
    split; intros Hx; apply andb_prop in Hx; destruct Hx as [Hx _]; auto.
  - cbn [ends_solid]. destruct IH1 as [IH1a IH1b].
    destruct (ends_solid icase r1) as [a1 b1], (ends_solid icase r2) as [a2 b2]; cbn [fst snd] in *.
    split; intros Hx; apply andb_prop in Hx; destruct Hx as [_ Hx]; auto.
  - cbn [ends_solid fst snd]. split; [discriminate | intros _; left; reflexivity].
  - cbn [ends_solid fst snd] in *. destruct IH1 as [_ IH1b], IH2 as [_ IH2b].
    split; [discriminate|]. intros Hx.
    destruct (IH2b Hx) as [<- | [pre2 [c2 [E2 Hs2]]]].
    + destruct (IH1b Hx) as [<- | Hr]; [lia | right; exact Hr].
    + right. destruct (mrel_suffix _ _ _ _ _ _ H1) as [p1 E1].
      exists (app p1 pre2), c2. split; [rewrite E1, E2, app_assoc; reflexivity | exact Hs2].
  - cbn [ends_solid]. exact IH1.
Qed.

Lemma starts_solid_sem : forall icase r x cs y cs', mrel icase r x cs y cs' ->
  (fst (starts_solid icase r) = true ->
     exists c x', x = c :: x' /\ Py.is_space c = false) /\
  (snd (starts_solid icase r) = true ->
     x = y \/ exists c x', x = c :: x' /\ Py.is_space c = false).
Proof.
  intros icase r x cs y cs' H. induction H as
    [s cs | p c s cs Hc | r1 r2 s cs s1 cs1 s2 cs2 H1 IH1 H2 IH2
    | r1 r2 s cs s' cs' H1 IH1 | r1 r2 s cs s' cs' H1 IH1 | g r s cs
    | g r s cs s1 cs1 s2 cs2 H1 IH1 Hl H2 IH2 | n r s cs s' cs' H1 IH1].
  - split; [discriminate | intros _; left; reflexivity].
  - cbn [starts_solid fst snd].
    split; intros Hn; [|right]; exists c, s; split; try reflexivity; exact (no_ws_space _ _ _ Hn Hc).
  - cbn [starts_solid]. destruct IH1 as [IH1a IH1b], IH2 as [IH2a IH2b].
    destruct (starts_solid icase r1) as [a1 b1], (starts_solid icase r2) as [a2 b2]; cbn [fst snd] in *.
    split.
    + intros Hx. destruct a1; [exact (IH1a eq_refl)|].
      destruct b1, a2; cbn in Hx; try discriminate.
      destruct (IH1b eq_refl) as [<- | Hr]; [exact (IH2a eq_refl) | exact Hr].
    + intros Hx. destruct a1; [right; exact (IH1a eq_refl)|].
      destruct b1, b2; cbn in Hx; try discriminate.
      destruct (IH1b eq_refl) as [<- | Hr]; [exact (IH2b eq_refl) | right; exact Hr].
  - cbn [starts_solid]. destruct IH1 as [IH1a IH1b].
    destruct (starts_solid icase r1) as [a1 b1], (starts_solid icase r2) as [a2 b2]; cbn [fst snd] in *.
    split; intros Hx; apply andb_prop in Hx; destruct Hx as [Hx _]; auto.
  - cbn [starts_solid]. destruct IH1 as [IH1a IH1b].
    destruct (starts_solid icase r1) as [a1 b1], (starts_solid icase r2) as [a2 b2]; cbn [fst snd] in *.
    split; intros Hx; apply andb_prop in Hx; destruct Hx as [_ Hx]; auto.
  - cbn [starts_solid fst snd]. split; [discriminate | intros _; left; reflexivity].
  - cbn [starts_solid fst snd] in *. destruct IH1 as [_ IH1b].
    split; [discriminate|]. intros Hx.
    destruct (IH1b Hx) as [<- | Hr]; [lia | right; exact Hr].
  - cbn [starts_solid]. exact IH1.
Qed.

Lemma match_at_none_ws : forall icase r x,
  fst (starts_solid icase r) = true ->
  (x = [] \/ exists c x', x = c :: x' /\ Py.is_space c = true) ->
  match_at icase r x = None.
Proof.
  intros icase r x Hs Hx. unfold match_at. apply mt_fail. intros s' cs' Hm.
  destruct (proj1 (starts_solid_sem _ _ _ _ _ _ Hm) Hs) as [c [x' [E Hc]]].
  destruct Hx as [-> | [c0 [x0 [E0 Hc0]]]]; [discriminate|].
  rewrite E0 in E. injection E as -> ->. congruence.
Qed.

Lemma match_at_app : forall icase r s t,
  fst (ends_solid icase r) = true -> spaces t ->
  match_at icase r (app s t) = option_map (fun p => (app (fst p) t, snd p)) (match_at icase r s).
Proof.
  intros icase r s t He Ht. unfold match_at. rewrite mt_app.
  - rewrite <- mt_map. reflexivity.
  - intros y cs' Hm [p0 [Hp0 Et]]. exfalso.
    destruct (proj1 (ends_solid_sem _ _ _ _ _ _ Hm) He) as [pre [c [E Hc]]].
    destruct (exists_last Hp0) as [p1 [d Ed]].
    rewrite Et, Ed in E.
    replace (app pre (c :: y)) with (app (app pre [c]) y) in E by (rewrite <- app_assoc; reflexivity).
    replace (app s (app (app p1 [d]) y)) with (app (app (app s p1) [d]) y) in E
      by (rewrite !app_assoc; reflexivity).
    apply app_inv_tail in E. apply app_inj_tail in E. destruct E as [_ <-].
    unfold spaces in Ht. rewrite Forall_forall in Ht.
    assert (Hd : In d t).
    { rewrite Et, Ed. apply in_or_app. left. apply in_or_app. right. left. reflexivity. }
    rewrite (Ht d Hd) in Hc. discriminate.
Qed.

Lemma findall_skip : forall icase r ng w s f,
  fst (starts_solid icase r) = true -> spaces w ->
  findall_aux (length w + f) icase r ng (app w s) = findall_aux f icase r ng s.
Proof.
  intros icase r ng w s f Hs. induction w as [|c w IH]; intros Hw; [reflexivity|].
  inversion Hw as [|c0 w0 Hc Hw0]; subst.
  cbn [length app Nat.add findall_aux].
  rewrite match_at_none_ws by (assumption || (right; exists c, (app w s); split; [reflexivity | assumption])).
  exact (IH Hw0).
Qed.

Lemma findall_spaces : forall f icase r ng w,
  fst (starts_solid icase r) = true -> spaces w -> findall_aux f icase r ng w = [].
Proof.
  induction f as [|f IH]; intros icase r ng w Hs Hw; [reflexivity|].
  cbn [findall_aux]. destruct w as [|c w].
  - rewrite match_at_none_ws by (assumption || (left; reflexivity)). reflexivity.
  - inversion Hw as [|c0 w0 Hc Hw0]; subst.
    rewrite match_at_none_ws by (assumption || (right; exists c, w; split; [reflexivity | assumption])).
    apply IH; assumption.
Qed.

Lemma findall_app_tail : forall icase r ng t,
  fst (starts_solid icase r) = true -> fst (ends_solid icase r) = true -> spaces t ->
  forall fR fL s, length s < fR -> length (app s t) < fL ->
  findall_aux fL icase r ng (app s t) = findall_aux fR icase r ng s.
Proof.
  intros icase r ng t Hs He Ht. induction fR as [|fR IH]; intros fL s H1 H2; [lia|].
  destruct fL as [|fL]; [lia|].
  assert (Hstep : match app s t with [] => [] | _ :: x => findall_aux fL icase r ng x end =
                  match s with [] => [] | _ :: x => findall_aux fR icase r ng x end).
  { destruct s as [|c s0]; cbn [app].
    - destruct t as [|d t0]; [reflexivity|].
      inversion Ht as [|d0 t1 Hd Ht0]; subst. apply findall_spaces; assumption.
    - cbn [length app] in H1, H2. apply IH; lia. }
  cbn [findall_aux]. rewrite match_at_app by assumption.
  destruct (match_at icase r s) as [[s' cs]|] eqn:Em; cbn [option_map fst snd]; [|exact Hstep].
  f_equal. destruct (length s' <? length s) eqn:Hl.
  - apply Nat.ltb_lt in Hl.
    rewrite (proj2 (Nat.ltb_lt _ _)) by (rewrite !length_app; lia).
    apply IH; rewrite ?length_app in *; lia.
  - apply Nat.ltb_ge in Hl.
    rewrite (proj2 (Nat.ltb_ge _ _)) by (rewrite !length_app; lia).
    exact Hstep.
Qed.

Lemma las_app : forall a b,
  list_ascii_of_string (String.append a b) = app (list_ascii_of_string a) (list_ascii_of_string b).
Proof. induction a as [|c a IH]; intros b; simpl; [reflexivity | rewrite IH; reflexivity]. Qed.

Lemma all_space_spaces : forall w, UtilsOps.all_space w = true -> spaces (list_ascii_of_string w).
Proof.
  intros w H. unfold UtilsOps.all_space in H. unfold spaces.
  rewrite Forall_forall. rewrite forallb_forall in H. exact H.
Qed.

Lemma findall_padded : forall icase r ng w1 s w2,
  fst (starts_solid icase r) = true -> fst (ends_solid icase r) = true ->
  UtilsOps.all_space w1 = true -> UtilsOps.all_space w2 = true ->
  findall icase r ng (String.append w1 (String.append s w2)) = findall icase r ng s.
Proof.
  intros icase r ng w1 s w2 Hs He H1 H2. unfold findall. cbv zeta. rewrite !las_app.
  apply all_space_spaces in H1, H2.
  replace (S (length (app (list_ascii_of_string w1)
                          (app (list_ascii_of_string s) (list_ascii_of_string w2)))))
    with (length (list_ascii_of_string w1)
          + S (length (app (list_ascii_of_string s) (list_ascii_of_string w2))))
    by (rewrite !length_app; lia).
  rewrite findall_skip by assumption.
  apply findall_app_tail; try assumption; lia.
Qed.

End RegexFacts.

(** C6 (amended).  Parsing any query whose WHERE block (the first group of
    the WHERE pattern) is [?s a dbo:Song . ?s rdfs:label ?l], with only
    whitespace around it, yields exactly the class entry
    [("?s", "dbo:Song")] and the single triple [("?s", "rdfs:label", "?l")];
    for every query, no extracted triple has predicate [rdf:type] or [a]
    (type triples only feed [classes]; [a] is not normalised). *)
Theorem parse_song_class_shape : forall q w1 w2,
  option_map (Regex.group 1) (Regex.search true where_re q)
    = Some (String.append w1 (String.append song_where w2)) ->
  UtilsOps.all_space w1 = true -> UtilsOps.all_space w2 = true ->
  classes (parse_sparql_query q) = [("?s", "dbo:Song")] /\
  properties (parse_sparql_query q) = [("?s", "rdfs:label", "?l")] /\
  (forall q' s p o, In (s, p, o) (properties (parse_sparql_query q')) ->
                    p <> "rdf:type" /\ p <> "a").
Proof.
  intros q w1 w2 Hw H1 H2.
  assert (Hc : classes (parse_sparql_query q) = [("?s", "dbo:Song")] /\
               properties (parse_sparql_query q) = [("?s", "rdfs:label", "?l")]).
  { unfold parse_sparql_query.
    destruct (Regex.search true where_re q) as [m|]; [|discriminate].
    assert (Hg : Regex.group 1 m = String.append w1 (String.append song_where w2))
      by (injection Hw; auto).
    cbv zeta. cbn [classes properties]. rewrite Hg.
    rewrite (RegexFacts.findall_padded true type_pattern 3 w1 song_where w2)
      by first [assumption | vm_compute; reflexivity].
    rewrite (RegexFacts.findall_padded false property_pattern 3 w1 song_where w2)
      by first [assumption | vm_compute; reflexivity].
    split; vm_compute; reflexivity. }
  destruct Hc as [Hc1 Hc2]. split; [exact Hc1|]. split; [exact Hc2|].
  intros q' s p o H. unfold parse_sparql_query in H.
  destruct (Regex.search true where_re q'); [|destruct H].
  simpl in H. apply in_map_iff in H as [g [Heq Hin]].
  injection Heq as Hs Hp Ho.
  apply in_filter_pred in Hin. rewrite Hp in Hin. simpl in Hin.
  destruct (String.eqb p "rdf:type") eqn:E1; [discriminate|].
  destruct (String.eqb p "a") eqn:E2; [discriminate|].
  apply String.eqb_neq in E1, E2. tauto.
Qed.

Lemma parse_song_class_shape_witness :
  option_map (Regex.group 1) (Regex.search true where_re q_song_class)
    = Some (String.append " " (String.append song_where " ")) /\
  classes (parse_sparql_query q_song_class) = [("?s", "dbo:Song")].
Proof.
  split; [vm_compute; reflexivity|].
  apply (parse_song_class_shape q_song_class " " " "); vm_compute; reflexivity.
Defined.

(** C3 (counterexample).  With the query pattern [?song rdfs:label
    ?songName] and the row [{song: dbr:X, songName: "X Song"}], a fresh
    builder records no edge at all, hence not the edge
    [(dbr:X, rdfs:label, literal_0_songName)]. *)
Lemma build_song_label_no_edge :
  match build_from_results fresh_builder q_song_label r_song 20 with
  | Ok b => edge_list b = [] /\
            edge_list b <> [("dbr:X", "rdfs:label", "literal_0_songName")]
  | Raised _ _ => False
  end.
Proof. vm_compute. split; [reflexivity | discriminate]. Qed.

(** C3 (amended).  For every query without a class declaration and
    without a named DBpedia resource (whatever its triple patterns) and
    every [max_results >= 1], building from the row
    [{song: uri X, songName: literal "X Song"}] on a fresh builder records
    no edge and exactly the two nodes [dbr:X] and [literal_0_songName]. *)
Theorem build_song_label_two_nodes :
  forall q m,
    classes (parse_sparql_query q) = [] ->
    main_entity (parse_sparql_query q) = None ->
    Regex.search false artist_pattern q = None ->
    (1 <= m)%Z ->
    exists b, build_from_results fresh_builder q r_song m = Ok b /\
              edge_list b = [] /\
              map fst (g_nodes b) = ["dbr:X"; "literal_0_songName"].
Proof.
  intros q m Hc Hm Ha Hpos.
  unfold build_from_results, r_song, select_result. cbn [q_results bindings].
  rewrite Hc, Hm, Ha, (slice_single _ m Hpos).
  eexists. split; [reflexivity|]. vm_compute. split; reflexivity.
Qed.

Lemma build_song_label_two_nodes_witness :
  exists b, build_from_results fresh_builder q_song_label r_song 20 = Ok b /\
            edge_list b = [] /\
            map fst (g_nodes b) = ["dbr:X"; "literal_0_songName"].
Proof.
  apply build_song_label_two_nodes; vm_compute; try reflexivity; discriminate.
Defined.



Section NoResourceVariable.
Variable bd : binding.
Hypothesis no_special :
  forall k v, In (k, v) bd -> ~ In k ["album"; "movie"; "film"; "book"; "song"].



End NoResourceVariable.


Import RowEdges.




Lemma adds_only_raised_entity : forall P b e i t l u,
  adds_only P b (Raised e (add_entity b i t l u)).
Proof. intros. exists []. split; [symmetry; apply app_nil_r | constructor]. Qed.












(** ** The nl2sparql generators and the dispatcher *)

Import NL Queries.

Lemma bind_ret_inv : forall {A B} (m : M A) (k : A -> M B) e tr tr' b,
  bind m k e tr = (tr', Ret b) ->
  exists tr1 a, m e tr = (tr1, Ret a) /\ k a e tr1 = (tr', Ret b).
Proof.
  intros A B m k e tr tr' b H. unfold bind in H.
  destruct (m e tr) as [tr1 [a|ex]]; [|discriminate].
  exists tr1, a. split; [reflexivity | exact H].
Qed.

(** C2 (code_bug).  Whenever the classifier answers [DEFINITION], the
    dispatcher calls [generate_definition_query(prompt=..., config_key=...)],
    whose signature has no [config_key]: the call raises a [TypeError]
    before any entity resolution, whatever the other generators are. *)
Theorem dispatch_definition_raises :
  forall gcls gagg gcmp gsup gbool grel prompt ck e tr tr1,
    _detect_query_type prompt ck e tr = (tr1, Ret DEFINITION) ->
    generate_and_execute_query gcls gagg gcmp gsup gbool grel prompt ck e tr =
      (tr1, Exc (TypeError "got an unexpected keyword argument 'config_key'")).
Proof.
  intros gcls gagg gcmp gsup gbool grel prompt ck e tr tr1 H.
  unfold generate_and_execute_query, bind. rewrite H. reflexivity.
Qed.

(** On the prompt "What is Foo?" with no entity found, the dispatcher
    raises after the classification call alone, while
    [generate_definition_query] called as the source declares it returns
    [(None, None)] after the entity-resolution call alone. *)
Lemma dispatch_definition_raises_witness :
  generate_and_execute_query no_gen2 no_gen2 no_gen2 no_gen2 no_gen2 no_gen1
    "What is Foo?" "LIRIS" env_no_entities [] =
    ([EvLLM "llama3:70b" 1%Z (detection_messages "What is Foo?")],
     Exc (TypeError "got an unexpected keyword argument 'config_key'")) /\
  generate_definition_query "What is Foo?" env_no_entities [] =
    ([EvSpotlight "What is Foo?"], Ret (None, None)).
Proof.
  split; [|reflexivity].
  apply dispatch_definition_raises. reflexivity.
Defined.

(** C4 (counterexample).  With no entity found, [fact_lookup_query]
    raises [ValueError], which is not a [LookupError]. *)
Lemma fact_lookup_raises_value_error :
  fact_lookup_query "Who?" "LIRIS" env_no_entities [] =
    ([EvSpotlight "Who?"], Exc (ValueError "No entities found in the prompt for fact lookup query.")) /\
  is_lookup_error (ValueError "No entities found in the prompt for fact lookup query.") = false.
Proof. split; reflexivity. Qed.

(** C4 (amended).  [fact_lookup_query] raises [ValueError] (a hard error,
    not [(None, None)]) when entity resolution returns no entity, and when
    the property list of the first resolved entity is empty. *)
Theorem fact_lookup_hard_errors :
  forall prompt ck e tr,
    (forall tr1, _get_entities prompt e tr = (tr1, Ret []) ->
       fact_lookup_query prompt ck e tr =
         (tr1, Exc (ValueError "No entities found in the prompt for fact lookup query."))) /\
    (forall tr1 surface main rest tr2,
       _get_entities prompt e tr = (tr1, Ret ((surface, main) :: rest)) ->
       _get_entity_properties main 30 e tr1 = (tr2, Ret []) ->
       fact_lookup_query prompt ck e tr =
         (tr2, Exc (ValueError "No properties found for the main entity in fact lookup query."))).
Proof.
  intros prompt ck e tr. split.
  - intros tr1 H. unfold fact_lookup_query, bind. rewrite H. reflexivity.
  - intros tr1 surface main rest tr2 H1 H2.
    unfold fact_lookup_query. unfold bind at 1. rewrite H1.
    unfold bind. rewrite H2. reflexivity.
Qed.

Lemma fact_lookup_hard_errors_witness :
  fact_lookup_query "Who?" "LIRIS" env_no_entities [] =
    ([EvSpotlight "Who?"], Exc (ValueError "No entities found in the prompt for fact lookup query.")) /\
  snd (fact_lookup_query "When was Obama born?" "LIRIS" env_no_properties []) =
    Exc (ValueError "No properties found for the main entity in fact lookup query.").
Proof.
  split.
  - apply (proj1 (fact_lookup_hard_errors "Who?" "LIRIS" env_no_entities [])). reflexivity.
  - erewrite (proj2 (fact_lookup_hard_errors "When was Obama born?" "LIRIS" env_no_properties []));
      [reflexivity | reflexivity | reflexivity].
Defined.

Import Traces.

Lemma appends_ret : forall {A} (a : A), appends (ret a).
Proof. intros A a en. exists [], (Ret a). intros tr. rewrite app_nil_r. reflexivity. Qed.

Lemma appends_raise : forall {A} e, appends (@raise A e).
Proof. intros A e en. exists [], (Exc e). intros tr. rewrite app_nil_r. reflexivity. Qed.

Lemma appends_bind : forall {A B} (m : M A) (k : A -> M B),
  appends m -> (forall a, appends (k a)) -> appends (bind m k).
Proof.
  intros A B m k Hm Hk en. destruct (Hm en) as [d [r Hr]]. unfold bind.
  destruct r as [a|e].
  - destruct (Hk a en) as [d2 [r2 Hr2]]. exists (app d d2), r2. intros tr.
    rewrite Hr, Hr2, app_assoc. reflexivity.
  - exists d, (Exc e). intros tr. rewrite Hr. reflexivity.
Qed.

Lemma appends_try : forall {A} (m : M A) (h : exn -> M A),
  appends m -> (forall e, appends (h e)) -> appends (try_except m h).
Proof.
  intros A m h Hm Hh en. destruct (Hm en) as [d [r Hr]]. unfold try_except.
  destruct r as [a|e].
  - exists d, (Ret a). intros tr. rewrite Hr. reflexivity.
  - destruct (Hh e en) as [d2 [r2 Hr2]]. exists (app d d2), r2. intros tr.
    rewrite Hr, Hr2, app_assoc. reflexivity.
Qed.

Lemma appends_execute_query : forall q, appends (execute_query q).
Proof.
  intros q en. unfold execute_query.
  destruct (sparql en q); eexists; eexists; intros tr; reflexivity.
Qed.

Lemma appends_get_bindings : forall r, appends (get_bindings r).
Proof.
  intros r. unfold get_bindings.
  destruct (q_results r) as [o|]; [destruct (bindings o)|];
    auto using appends_ret, appends_raise.
Qed.

Lemma appends_row_value : forall row var, appends (row_value row var).
Proof.
  intros row var. unfold row_value.
  destruct (Py.sget row var) as [v|]; [destruct (vvalue v)|];
    auto using appends_ret, appends_raise.
Qed.

Lemma appends_mapM : forall {A B} (f : A -> M B) l,
  (forall x, appends (f x)) -> appends (mapM f l).
Proof.
  intros A B f l Hf. induction l as [|x l IH]; simpl.
  - apply appends_ret.
  - apply appends_bind; [apply Hf|]. intros y.
    apply appends_bind; [exact IH|]. intros ys. apply appends_ret.
Qed.

Lemma appends_verify_classes : forall cls, appends (_verify_classes_exist cls).
Proof.
  intros [|c cs]; [apply appends_ret|]. unfold _verify_classes_exist.
  apply appends_try; [|intros; apply appends_ret].
  apply appends_bind; [apply appends_execute_query|]. intros results.
  apply appends_bind; [apply appends_get_bindings|]. intros rows.
  apply appends_bind.
  - apply appends_mapM. intros r. apply appends_bind; [apply appends_row_value|].
    intros v. apply appends_ret.
  - intros existing. apply appends_ret.
Qed.

(** When the verification query fails, [_verify_classes_exist] returns
    its input. *)
Lemma verify_classes_fail_open : forall cls en tr,
  sparql en (Prefixes.prefixes ++ verify_classes_query cls) = None ->
  snd (_verify_classes_exist cls en tr) = Ret cls.
Proof.
  intros [|c cs] en tr H; [reflexivity|].
  unfold _verify_classes_exist, try_except, bind at 1, execute_query. rewrite H. reflexivity.
Qed.

Lemma subseq_refl : forall {A} (l : list A), subseq l l.
Proof. induction l; constructor; assumption. Qed.

Lemma subseq_filter : forall {A} (f : A -> bool) (l : list A), subseq (filter f l) l.
Proof.
  intros A f l. induction l as [|x l IH]; simpl; [constructor|].
  destruct (f x); constructor; exact IH.
Qed.

Lemma verify_classes_subseq : forall classes e tr tr' r,
  _verify_classes_exist classes e tr = (tr', Ret r) -> subseq r classes.
Proof.
  intros classes e tr tr' r H. destruct classes as [|c cs].
  - injection H as _ <-. constructor.
  - unfold _verify_classes_exist, try_except in H.
    match type of H with
    | (match ?m e tr with _ => _ end) = _ => destruct (m e tr) as [tr1 [a|ex]] eqn:Em
    end.
    + injection H as _ <-.
      apply bind_ret_inv in Em as [tr2 [results [_ Em]]].
      apply bind_ret_inv in Em as [tr3 [rows [_ Em]]].
      apply bind_ret_inv in Em as [tr4 [existing [_ Em]]].
      injection Em as _ <-. exact (subseq_filter (fun c => Builder.str_in c existing) (c :: cs)).
    + injection H as _ <-. apply subseq_refl.
Qed.

(** C5 (failing input).  Asked for [n = 1] class, the model answers
    "dbo:City dbo:Place"; the verification query fails, and the resolver
    returns both classes. *)
Lemma target_classes_exceed_n :
  match _get_target_classes "Cities in France" 1 "LIRIS" env_classes_unverified [] with
  | (_, Ret cls) => cls = ["dbo:City"; "dbo:Place"] /\ 1 < length cls
  | (_, Exc _) => False
  end.
Proof. vm_compute. split; [reflexivity | lia]. Qed.

(** C5 (code bug: the docstring says [n_class] is the number of classes
    to return).  Whatever [n], the classes [_get_target_classes] returns
    form a subsequence of the whitespace-split reply of the model
    (verification only filters, keeping the order); when the verification
    query fails the whole split reply is returned; and the result does not
    depend on [n] beyond the reply it elicits: [n] is only written into the
    prompt and nothing cuts the list to [n] entries. *)
Theorem target_classes_subseq_of_reply :
  forall prompt n ck e tr cfg reply,
    Py.sget configs ck = Some cfg ->
    llm e (c_model cfg) (c_temperature cfg) (target_class_messages prompt n) = Some reply ->
    (forall tr' cls, _get_target_classes prompt n ck e tr = (tr', Ret cls) ->
       subseq cls (Py.split_ws (Py.strip reply))) /\
    (Builder.truthy (getenv e (c_prefix cfg ++ "_API")) = true ->
     Builder.truthy (getenv e (c_prefix cfg ++ "_API_KEY")) = true ->
     sparql e (Prefixes.prefixes ++ verify_classes_query (Py.split_ws (Py.strip reply))) = None ->
     snd (_get_target_classes prompt n ck e tr) = Ret (Py.split_ws (Py.strip reply))) /\
    (forall n', llm e (c_model cfg) (c_temperature cfg) (target_class_messages prompt n') = Some reply ->
       snd (_get_target_classes prompt n' ck e tr) = snd (_get_target_classes prompt n ck e tr)).
Proof.
  intros prompt n ck e tr cfg reply Hcfg Hllm. split; [|split].
  - intros tr' cls H.
    unfold _get_target_classes in H. rewrite Hcfg in H.
    apply bind_ret_inv in H as [tr1 [u [_ H]]].
    apply bind_ret_inv in H as [tr2 [content [Hc H]]].
    unfold chat_create in Hc. rewrite Hllm in Hc. injection Hc as _ <-.
    apply bind_ret_inv in H as [tr3 [verified [Hv H]]].
    injection H as _ <-.
    exact (verify_classes_subseq _ _ _ _ _ Hv).
  - intros H1 H2 Hq. unfold _get_target_classes. rewrite Hcfg.
    unfold bind at 1, _create_client, bind at 1 2, os_getenv. rewrite H1, H2. cbn [negb orb].
    unfold ret at 1, bind at 1, chat_create. rewrite Hllm. unfold bind.
    pose proof (verify_classes_fail_open (Py.split_ws (Py.strip reply)) e
                  (app tr [EvLLM (c_model cfg) (c_temperature cfg) (target_class_messages prompt n)]) Hq)
      as Hv.
    destruct (_verify_classes_exist _ _ _) as [tr3 [v|x]]; cbn in Hv |- *; congruence.
  - intros n' Hllm'. unfold _get_target_classes. rewrite Hcfg.
    unfold _create_client, os_getenv. unfold bind, chat_create, ret, raise. cbv beta iota.
    destruct (negb (truthy (getenv e (c_prefix cfg ++ "_API")))
              || negb (truthy (getenv e (c_prefix cfg ++ "_API_KEY")))); [reflexivity|].
    rewrite Hllm, Hllm'.
    destruct (appends_verify_classes (Py.split_ws (Py.strip reply)) e) as [d [r Hr]].
    rewrite !Hr. destruct r; cbn [snd]; reflexivity.
Qed.

Lemma target_classes_subseq_of_reply_witness :
  snd (_get_target_classes "Cities in France" 1 "LIRIS" env_classes_unverified [])
    = Ret ["dbo:City"; "dbo:Place"].
Proof.
  assert (Hs : Py.split_ws (Py.strip "dbo:City dbo:Place") = ["dbo:City"; "dbo:Place"])
    by (vm_compute; reflexivity).
  rewrite <- Hs.
  apply (proj1 (proj2 (target_classes_subseq_of_reply "Cities in France" 1 "LIRIS"
                         env_classes_unverified [] (mk_config "LIRIS" "llama3:70b" 4%Z)
                         "dbo:City dbo:Place" ltac:(vm_compute; reflexivity)
                         ltac:(vm_compute; reflexivity))));
    vm_compute; reflexivity.
Defined.

(** C9.  The handler table has an entry for each of the eight query
    types, so every type the classifier returns is dispatched to its
    generator (the [(None, None)] branch is never taken), and a reply
    that names no type is classified as [CLASS_QUERY]. *)
Theorem dispatch_total :
  forall gcls gagg gcmp gsup gbool grel,
    (forall qt, exists h,
       Py.dict_get QueryType_eqb (handlers gcls gagg gcmp gsup gbool grel) qt = Some h) /\
    (forall prompt ck e tr tr1 qt,
       _detect_query_type prompt ck e tr = (tr1, Ret qt) ->
       exists h,
         Py.dict_get QueryType_eqb (handlers gcls gagg gcmp gsup gbool grel) qt = Some h /\
         generate_and_execute_query gcls gagg gcmp gsup gbool grel prompt ck e tr =
           call_kw h prompt ck e tr1) /\
    (forall content, ~ In (upper (Py.strip content)) (map fst type_mapping) ->
       type_of_reply content = CLASS_QUERY).
Proof.
  intros gcls gagg gcmp gsup gbool grel. split; [|split].
  - intros qt. destruct qt; eexists; reflexivity.
  - intros prompt ck e tr tr1 qt H.
    unfold generate_and_execute_query, bind. rewrite H.
    destruct qt; eexists; split; reflexivity.
  - intros content Hnot. unfold type_of_reply.
    destruct (Py.sget type_mapping (upper (Py.strip content))) as [t|] eqn:E; [|reflexivity].
    exfalso. apply Hnot.
    unfold Py.sget in E. revert E. generalize type_mapping as tm.
    induction tm as [|[k v] tm IH]; simpl; [discriminate|].
    destruct (String.eqb (upper (Py.strip content)) k) eqn:Ek.
    + intros _. left. symmetry. apply String.eqb_eq. exact Ek.
    + intros E. right. exact (IH E).
Qed.

Lemma dispatch_total_witness :
  generate_and_execute_query no_gen2 no_gen2 no_gen2 no_gen2 no_gen2 no_gen1
    "Cities in France" "LIRIS" env_classes_unverified [] =
    ([EvLLM "llama3:70b" 1%Z (detection_messages "Cities in France")], Ret (None, None)) /\
  type_of_reply "dbo:City dbo:Place" = CLASS_QUERY.
Proof.
  split.
  - destruct (proj1 (proj2 (dispatch_total no_gen2 no_gen2 no_gen2 no_gen2 no_gen2 no_gen1))
                "Cities in France" "LIRIS" env_classes_unverified []
                [EvLLM "llama3:70b" 1%Z (detection_messages "Cities in France")] CLASS_QUERY
                eq_refl) as [h [Hh ->]].
    simpl in Hh. injection Hh as <-. reflexivity.
  - apply (proj2 (proj2 (dispatch_total no_gen2 no_gen2 no_gen2 no_gen2 no_gen2 no_gen1))).
    vm_compute. intuition discriminate.
Defined.

(** C10.  [_check_response_is_empty] is true exactly for a response
    whose [results] has a [bindings] list of length zero; an ASK response
    [{boolean: false}] and a response without [results] are non-empty, and
    [fact_lookup_query] returns any non-empty response as its answer. *)
Theorem check_response_is_empty_spec :
  (forall resp, _check_response_is_empty resp = true <->
                exists r, q_results resp = Some r /\ bindings r = Some []) /\
  _check_response_is_empty (mk_qresult None (Some false)) = false /\
  _check_response_is_empty (mk_qresult None None) = false /\
  (forall e tr query resp,
     sparql e (Prefixes.prefixes ++ query) = Some resp ->
     _check_response_is_empty resp = false ->
     fact_lookup_try query e tr =
       (app tr [EvSPARQL (Prefixes.prefixes ++ query)], Ret (Some query, Some resp))).
Proof.
  split; [|split; [reflexivity|split; [reflexivity|]]].
  - intros [[[[[|b bs]|]]|] bo]; unfold _check_response_is_empty; simpl; split.
    all: try (intros _; eexists; split; reflexivity).
    all: try (intros _; reflexivity).
    all: try (intros H; discriminate H).
    all: intros [r [Hr Hb]];
         first [ discriminate Hr | injection Hr as <-; simpl in Hb; discriminate Hb ].
  - intros e tr query resp Hs Hc.
    unfold fact_lookup_try, try_except, bind, execute_query. rewrite Hs, Hc. reflexivity.
Qed.

Lemma check_response_is_empty_spec_witness :
  fact_lookup_try "ASK { dbr:X ?p ?o }" env_ask [] =
    ([EvSPARQL (Prefixes.prefixes ++ "ASK { dbr:X ?p ?o }")],
     Ret (Some "ASK { dbr:X ?p ?o }", Some ask_false)) /\
  snd (fact_lookup_query "Is X known?" "LIRIS" env_ask []) =
    Ret (Some "ASK { dbr:X ?p ?o }", Some ask_false).
Proof.
  split.
  - apply (proj2 (proj2 (proj2 check_response_is_empty_spec))); reflexivity.
  - vm_compute. reflexivity.
Defined.

(* ================================================================== *)
(** * Further properties: the graph builder *)

Import GraphOps.

Lemma dict_get_app : forall {V} (d e : list (string * V)) k,
  Py.sget (app d e) k = match Py.sget d k with Some v => Some v | None => Py.sget e k end.
Proof.
  intros V d e k. unfold Py.sget. induction d as [|[k0 v0] d IH]; simpl; [reflexivity|].
  destruct (String.eqb k k0); [reflexivity | exact IH].
Qed.

Lemma smem_sset : forall {V} (d : list (string * V)) k v k',
  Py.smem (Py.sset d k v) k' = String.eqb k' k || Py.smem d k'.
Proof.
  intros V d k v k'. unfold Py.smem, Py.sset, Py.dict_mem.
  induction d as [|[k0 v0] d IH]; simpl.
  - destruct (String.eqb k' k); reflexivity.
  - destruct (String.eqb k k0) eqn:E.
    + apply String.eqb_eq in E. subst k0. simpl.
      destruct (String.eqb k' k); reflexivity.
    + simpl. destruct (String.eqb k' k0); [|exact IH].
      destruct (String.eqb k' k); reflexivity.
Qed.

Lemma smem_node_ensure : forall d n k,
  Py.smem (node_ensure d n) k = String.eqb k n || Py.smem d k.
Proof.
  intros d n k. unfold node_ensure.
  destruct (Py.smem d n) eqn:E.
  - destruct (String.eqb k n) eqn:Ek; [|reflexivity].
    apply String.eqb_eq in Ek. subst. exact E.
  - unfold Py.smem, Py.dict_mem. fold (@Py.sget (option (string * string))).
    rewrite dict_get_app. simpl.
    destruct (Py.sget d k) eqn:Eg; simpl.
    + rewrite orb_true_r. reflexivity.
    + rewrite orb_false_r. destruct (String.eqb k n); reflexivity.
Qed.

Lemma in_dict_set_pair : forall (d : list ((string * string) * string)) y q x p,
  In (x, p) (Py.dict_set pair_eqb d y q) -> x = y \/ exists p', In (x, p') d.
Proof.
  induction d as [|[k0 v0] d IH]; intros y q x p H; simpl in H.
  - destruct H as [H|[]]. injection H as -> _. left. reflexivity.
  - destruct (pair_eqb y k0).
    + destruct H as [H|H].
      * injection H as -> _. right. exists v0. left. reflexivity.
      * right. exists p. right. exact H.
    + destruct H as [H|H].
      * injection H as -> _. right. exists v0. left. reflexivity.
      * destruct (IH y q x p H) as [->|[p' Hp]]; [left; reflexivity|].
        right. exists p'. right. exact Hp.
Qed.

Lemma closed_add_entity : forall b i t l u,
  graph_closed b -> graph_closed (add_entity b i t l u).
Proof.
  intros b i t l u [He [Ht Hg]]. unfold graph_closed, add_entity, graph_add_node; simpl.
  assert (Hkeep : forall k, Py.smem (g_nodes b) k = true ->
            Py.smem (Py.sset (g_nodes b) i (Some (t, l))) k = true).
  { intros k Hk. rewrite smem_sset, Hk, orb_true_r. reflexivity. }
  split; [|split].
  - intros k. rewrite !smem_sset. destruct (String.eqb k i); [reflexivity|]. apply He.
  - intros s' p' o' H. destruct (Ht s' p' o' H) as [H1 H2]. split; apply Hkeep; assumption.
  - intros s' o' p' H. destruct (Hg s' o' p' H) as [H1 H2]. split; apply Hkeep; assumption.
Qed.

Lemma closed_add_property : forall b s p o,
  graph_closed b -> graph_closed (add_property b s p o).
Proof.
  intros b s p o [He [Ht Hg]]. unfold graph_closed, add_property; simpl.
  assert (Hkeep : forall k, Py.smem (g_nodes b) k = true ->
            Py.smem (node_ensure (node_ensure (g_nodes b) s) o) k = true).
  { intros k Hk. rewrite !smem_node_ensure, Hk, !orb_true_r. reflexivity. }
  assert (Hs : Py.smem (node_ensure (node_ensure (g_nodes b) s) o) s = true).
  { rewrite !smem_node_ensure, String.eqb_refl, orb_true_r. reflexivity. }
  assert (Ho : Py.smem (node_ensure (node_ensure (g_nodes b) s) o) o = true).
  { rewrite smem_node_ensure, String.eqb_refl. reflexivity. }
  split; [|split].
  - intros k Hk. apply Hkeep, He, Hk.
  - intros s' p' o' H. apply in_app_or in H as [H|[H|[]]].
    + destruct (Ht s' p' o' H). split; apply Hkeep; assumption.
    + injection H as <- <- <-. split; assumption.
  - intros s' o' p' H. apply in_dict_set_pair in H as [H|[p'' H]].
    + injection H as -> ->. split; assumption.
    + destruct (Hg s' o' p'' H). split; apply Hkeep; assumption.
Qed.

Lemma fold_left_pres : forall {A} (P : builder -> Prop) (f : builder -> A -> builder) l b,
  (forall b x, P b -> P (f b x)) -> P b -> P (fold_left f l b).
Proof.
  intros A P f l. induction l as [|x l IH]; intros b Hf Hb; simpl; [exact Hb|].
  apply IH; [exact Hf | apply Hf, Hb].
Qed.

Section Preserve.
Variable Inv : builder -> Prop.
Hypothesis inv_add_entity : forall b i t l u, Inv b -> Inv (add_entity b i t l u).
Hypothesis inv_add_property : forall b s p o, Inv b -> Inv (add_property b s p o).

Ltac inv_steps :=
  simpl outcome_state; repeat (apply inv_add_property || apply inv_add_entity); assumption.

Lemma process_var_inv : forall q mc me idx bd b x v,
  Inv b -> Inv (outcome_state (process_var q mc me idx bd b x v)).
Proof.
  intros q mc me idx bd b x v Hb. unfold process_var. cbv zeta.
  repeat match goal with
         | |- context [match ?x with _ => _ end] => destruct x
         end; inv_steps.
Qed.

Lemma process_row_inv : forall q mc me idx bd items b,
  Inv b -> Inv (outcome_state (process_row q mc me idx bd items b)).
Proof.
  intros q mc me idx bd items. induction items as [|[x v] items IH]; intros b Hb; simpl.
  - exact Hb.
  - pose proof (process_var_inv q mc me idx bd b x v Hb) as H.
    destruct (process_var q mc me idx bd b x v); [apply IH|]; exact H.
Qed.

Lemma process_rows_inv : forall q mc me rows idx b,
  Inv b -> Inv (outcome_state (process_rows q mc me idx rows b)).
Proof.
  intros q mc me rows. induction rows as [|bd rows IH]; intros idx b Hb; simpl.
  - exact Hb.
  - pose proof (process_row_inv q mc me idx bd bd b Hb) as H.
    destruct (process_row q mc me idx bd bd b); [apply IH|]; exact H.
Qed.

Lemma build_from_results_inv : forall b q r m,
  Inv b -> Inv (outcome_state (build_from_results b q r m)).
Proof.
  intros b q r m Hb. unfold build_from_results.
  destruct (q_results r) as [o|]; [|exact Hb].
  destruct (bindings o) as [rows|]; [|exact Hb].
  cbv zeta. apply process_rows_inv.
  repeat match goal with
         | |- context [match ?x with _ => _ end] => destruct x
         end; inv_steps.
Qed.

Lemma build_from_sparql_inv : forall b q n,
  Inv b -> Inv (build_from_sparql b q n).
Proof.
  intros b q n Hb. unfold build_from_sparql. cbv zeta.
  apply fold_left_pres.
  - intros b' [[s p] o] H. unfold sparql_property_step.
    destruct (object_kind o) as [ot ob].
    repeat match goal with
           | |- context [if ?x then _ else _] => destruct x
           end; repeat (apply inv_add_property || apply inv_add_entity); assumption.
  - repeat match goal with
           | |- context [match ?x with _ => _ end] => destruct x
           end; try (apply inv_add_entity);
    (apply fold_left_pres; [|exact Hb]);
    intros b' [v c] H; unfold sparql_class_step;
    repeat (apply inv_add_property || apply inv_add_entity); assumption.
Qed.
End Preserve.

Lemma closed_fresh : graph_closed fresh_builder.
Proof. split; [|split]; simpl; [discriminate | intros ? ? ? [] | intros ? ? ? []]. Qed.

(** [build_from_results] keeps the graph closed: when every entity is a graph node and both ends of every recorded triple and graph edge are nodes, the same holds of the state it leaves, whether it returns or raises a [KeyError] midway. *)
Theorem build_from_results_closed : forall b q r m,
  graph_closed b -> graph_closed (outcome_state (build_from_results b q r m)).
Proof.
  intros b q r m H. apply build_from_results_inv; [exact closed_add_entity | exact closed_add_property | exact H].
Qed.

Lemma build_from_results_closed_witness :
  graph_closed (outcome_state (build_from_results fresh_builder q_song_class r_song 20)).
Proof.
  apply build_from_results_closed.
  split; [|split]; simpl; [discriminate | intros ? ? ? [] | intros ? ? ? []].
Defined.

(** [build_from_sparql] keeps the graph closed in the same sense. *)
Theorem build_from_sparql_closed : forall b q n,
  graph_closed b -> graph_closed (build_from_sparql b q n).
Proof.
  intros b q n H. apply build_from_sparql_inv; [exact closed_add_entity | exact closed_add_property | exact H].
Qed.

Lemma build_from_sparql_closed_witness :
  graph_closed (build_from_sparql fresh_builder q_song_class "").
Proof.
  apply build_from_sparql_closed.
  split; [|split]; simpl; [discriminate | intros ? ? ? [] | intros ? ? ? []].
Defined.

Lemma extends_refl : forall b, extends b b.
Proof. intros b. split; [exists []; rewrite app_nil_r; reflexivity | split; auto]. Qed.

Lemma extends_add_entity : forall b0 b i t l u, extends b0 b -> extends b0 (add_entity b i t l u).
Proof.
  intros b0 b i t l u [[added Ha] [He Hn]]. split; [|split].
  - exists added. exact Ha.
  - intros k Hk. simpl. rewrite smem_sset, He, orb_true_r; [reflexivity | exact Hk].
  - intros k Hk. simpl. unfold graph_add_node. rewrite smem_sset, Hn, orb_true_r; [reflexivity | exact Hk].
Qed.

Lemma extends_add_property : forall b0 b s p o, extends b0 b -> extends b0 (add_property b s p o).
Proof.
  intros b0 b s p o [[added Ha] [He Hn]]. split; [|split].
  - exists (app added [(s, p, o)]). simpl. rewrite Ha, app_assoc. reflexivity.
  - exact He.
  - intros k Hk. simpl. rewrite !smem_node_ensure, Hn, !orb_true_r; [reflexivity | exact Hk].
Qed.

(** [build_from_results] never removes anything: the triples recorded before the call stay a prefix of [self.properties], and every entity and graph node stays, whether the call returns or raises. *)
Theorem build_from_results_extends : forall b q r m,
  extends b (outcome_state (build_from_results b q r m)).
Proof.
  intros b q r m. apply (build_from_results_inv (extends b)).
  - intros; apply extends_add_entity; assumption.
  - intros; apply extends_add_property; assumption.
  - apply extends_refl.
Qed.






Lemma class_steps_edges : forall l b,
  edge_list (fold_left sparql_class_step l b) =
    app (edge_list b) (map (fun '(v, c) => (v, "rdf:type", c)) l).
Proof.
  induction l as [|[v c] l IH]; intros b; simpl.
  - rewrite app_nil_r. reflexivity.
  - rewrite IH. unfold sparql_class_step. simpl. rewrite <- app_assoc. reflexivity.
Qed.

Lemma property_steps_edges : forall l b,
  edge_list (fold_left sparql_property_step l b) =
    app (edge_list b) (map (fun '(s, p, o) => (s, p, snd (object_kind o))) l).
Proof.
  induction l as [|[[s p] o] l IH]; intros b; simpl.
  - rewrite app_nil_r. reflexivity.
  - rewrite IH. unfold sparql_property_step. destruct (object_kind o) as [ot ob]. simpl.
    rewrite <- app_assoc. f_equal.
    destruct (Py.smem (entities b) s); simpl;
    match goal with |- context [if ?c then _ else _] => destruct c end; reflexivity.
Qed.

(** The triples [build_from_sparql] appends are, in order, one [rdf:type] triple per class entry of the parse, then one triple per extracted property triple, with a quoted object stripped of its quotes. *)
Theorem build_from_sparql_edges : forall b q n,
  edge_list (build_from_sparql b q n) =
    app (edge_list b)
      (app (map (fun '(v, c) => (v, "rdf:type", c)) (classes (parse_sparql_query q)))
           (map (fun '(s, p, o) => (s, p, snd (object_kind o))) (properties (parse_sparql_query q)))).
Proof.
  intros b q n. unfold build_from_sparql. cbv zeta.
  rewrite property_steps_edges, app_assoc, <- class_steps_edges. f_equal.
  destruct (main_entity (parse_sparql_query q)); [|reflexivity].
  destruct (truthy _); reflexivity.
Qed.

(** A query with no WHERE block (in any letter case) leaves the builder untouched, even when it names a DBpedia resource. *)
Theorem build_from_sparql_no_where : forall b q n,
  Regex.search true where_re q = None -> build_from_sparql b q n = b.
Proof.
  intros b q n H. unfold build_from_sparql, parse_sparql_query. rewrite H. reflexivity.
Qed.

Lemma build_from_sparql_no_where_witness :
  build_from_sparql fresh_builder "ASK { dbr:X ?p ?o }" "" = fresh_builder.
Proof. apply build_from_sparql_no_where. vm_compute. reflexivity. Defined.

Lemma sset_twice : forall {V} (d : list (string * V)) k v1 v2,
  Py.sset (Py.sset d k v1) k v2 = Py.sset d k v2.
Proof.
  intros V d k v1 v2. unfold Py.sset.
  induction d as [|[k0 v0] d IH]; simpl.
  - rewrite String.eqb_refl. reflexivity.
  - destruct (String.eqb k k0) eqn:E; simpl; rewrite E; [reflexivity|]. rewrite IH. reflexivity.
Qed.

(** Adding the same entity twice is the same as adding it once. *)
Theorem add_entity_idempotent : forall b i t l u,
  add_entity (add_entity b i t l u) i t l u = add_entity b i t l u.
Proof.
  intros b i t l u. unfold add_entity at 1. simpl. unfold graph_add_node.
  rewrite !sset_twice. reflexivity.
Qed.

Lemma pair_eqb_refl : forall a, pair_eqb a a = true.
Proof. intros [x y]. unfold pair_eqb. simpl. rewrite !String.eqb_refl. reflexivity. Qed.

Lemma dict_set_pair_twice : forall (d : list ((string * string) * string)) k v1 v2,
  Py.dict_set pair_eqb (Py.dict_set pair_eqb d k v1) k v2 = Py.dict_set pair_eqb d k v2.
Proof.
  intros d k v1 v2. induction d as [|[k0 v0] d IH]; simpl.
  - rewrite pair_eqb_refl. reflexivity.
  - destruct (pair_eqb k k0) eqn:E; simpl; rewrite E; [reflexivity|]. rewrite IH. reflexivity.
Qed.

Lemma node_ensure_present : forall d n, Py.smem d n = true -> node_ensure d n = d.
Proof. intros d n H. unfold node_ensure. rewrite H. reflexivity. Qed.

(** Two triples with the same subject and object: the networkx graph keeps a single edge, labelled with the last predicate, and the same nodes as one call would, while [self.properties] keeps both triples. *)
Theorem add_property_same_pair : forall b s p1 p2 o,
  let b2 := add_property (add_property b s p1 o) s p2 o in
  g_nodes b2 = g_nodes (add_property b s p2 o) /\
  g_edges b2 = g_edges (add_property b s p2 o) /\
  edge_list b2 = app (edge_list b) [(s, p1, o); (s, p2, o)].
Proof.
  intros b s p1 p2 o b2. unfold b2, add_property; simpl. split; [|split].
  - rewrite (node_ensure_present _ s), (node_ensure_present _ o); [reflexivity| |];
      rewrite !smem_node_ensure, String.eqb_refl; [reflexivity|].
    rewrite orb_true_r. reflexivity.
  - apply dict_set_pair_twice.
  - rewrite <- app_assoc. reflexivity.
Qed.

(** A result without [results] or without [results.bindings] (an ASK answer, for instance) leaves the builder untouched. *)
Theorem build_from_results_no_bindings : forall b q r m,
  (q_results r = None \/ exists o, q_results r = Some o /\ bindings o = None) ->
  build_from_results b q r m = Ok b.
Proof.
  intros b q r m [H|[o [H1 H2]]]; unfold build_from_results; [rewrite H | rewrite H1, H2]; reflexivity.
Qed.

Lemma build_from_results_no_bindings_witness :
  build_from_results fresh_builder q_song_class ask_false 20 = Ok fresh_builder.
Proof. apply build_from_results_no_bindings. left. reflexivity. Defined.

(** With [max_results = 0] no row is processed: the call returns and records no triple (only the main entity and class nodes may be added). *)
Theorem build_from_results_zero_rows : forall b q r,
  exists b', build_from_results b q r 0 = Ok b' /\ edge_list b' = edge_list b.
Proof.
  intros b q r. unfold build_from_results.
  destruct (q_results r) as [o|]; [|exists b; split; reflexivity].
  destruct (bindings o) as [rows|]; [|exists b; split; reflexivity].
  cbv zeta. unfold slice_upto. simpl firstn. simpl process_rows.
  eexists. split; [reflexivity|].
  repeat match goal with
         | |- context [match ?x with _ => _ end] => destruct x
         end; reflexivity.
Qed.

(** ** Turtle export and summary *)

(** Every prefixed name [uri_to_prefixed] produces uses a prefix declared in the header [export_to_turtle] writes, and that declaration expands it back to the URI; otherwise the URI is returned unchanged. *)
Theorem turtle_declares_prefixes : forall b uri,
  uri_to_prefixed uri = uri \/
  exists p full rest,
    In (turtle_prefix_line p full) (export_to_turtle b) /\
    uri = full ++ rest /\ uri_to_prefixed uri = p ++ ":" ++ rest.
Proof.
  intros b uri.
  destruct (existsb (fun '(full, _) => String.prefix full uri) namespaces_rev) eqn:E.
  - right. apply existsb_exists in E as [[full p] [Hin Hpre]].
    unfold uri_to_prefixed.
    destruct (loop_some_match namespaces_rev uri (ex_intro _ full (ex_intro _ p (conj Hin Hpre))))
      as [f1 [p1 [Hin1 [Hpre1 ->]]]].
    destruct (prefix_app f1 uri Hpre1) as [rest ->].
    exists p1, f1, rest. split; [|split; [reflexivity|]].
    + unfold export_to_turtle. apply in_or_app. left.
      rewrite namespaces_rev_swap in Hin1. apply in_map_iff in Hin1 as [[k v] [Heq Hkv]].
      injection Heq as <- <-. apply in_map_iff. exists (k, v). split; [reflexivity | exact Hkv].
    + rewrite substring_after. reflexivity.
  - left. unfold uri_to_prefixed. apply loop_no_match.
    intros full p Hin. destruct (String.prefix full uri) eqn:Ep; [|reflexivity].
    rewrite <- E. symmetry. apply existsb_exists. exists (full, p). split; assumption.
Qed.

Lemma sum_sset_incr : forall tc t,
  list_sum (map snd (Py.sset tc t (match Py.sget tc t with Some n => n | None => 0 end + 1)))
    = list_sum (map snd tc) + 1.
Proof.
  intros tc t. unfold Py.sset, Py.sget.
  induction tc as [|[k v] tc IH]; simpl.
  - reflexivity.
  - destruct (String.eqb t k) eqn:E; simpl.
    + lia.
    + rewrite IH. lia.
Qed.

(** The per-type counts of [print_summary] add up to the number of entities. *)
Theorem type_counts_total : forall b,
  list_sum (map snd (type_counts b)) = length (entities b).
Proof.
  intros b. unfold type_counts.
  assert (G : forall l acc,
    list_sum (map snd (fold_left type_count_step l acc)) = list_sum (map snd acc) + length l).
  { induction l as [|[k ed] l IH]; intros acc; simpl; [lia|].
    rewrite IH. unfold type_count_step. rewrite sum_sset_incr. lia. }
  rewrite G. reflexivity.
Qed.

(** ** Whitespace, replacement and the cleaning of model replies *)

Import UtilsOps.


Lemma list_ascii_app : forall a b,
  list_ascii_of_string (a ++ b) = app (list_ascii_of_string a) (list_ascii_of_string b).
Proof. induction a as [|c a IH]; intros b; simpl; [reflexivity | rewrite IH; reflexivity]. Qed.

Lemma rev_string_app : forall a b, Py.rev_string (a ++ b) = Py.rev_string b ++ Py.rev_string a.
Proof.
  intros a b. unfold Py.rev_string. rewrite list_ascii_app, rev_app_distr.
  generalize (rev (list_ascii_of_string b)) as l1. generalize (rev (list_ascii_of_string a)) as l2.
  intros l2 l1. induction l1 as [|c l1 IH]; simpl; [reflexivity | rewrite IH; reflexivity].
Qed.

Lemma rev_string_involutive : forall s, Py.rev_string (Py.rev_string s) = s.
Proof.
  intros s. unfold Py.rev_string. rewrite list_ascii_of_string_of_list_ascii, rev_involutive.
  apply string_of_list_ascii_of_string.
Qed.

Lemma all_space_rev : forall w, all_space w = true -> all_space (Py.rev_string w) = true.
Proof.
  intros w H. unfold all_space, Py.rev_string in *.
  rewrite list_ascii_of_string_of_list_ascii. apply forallb_forall.
  intros x Hx. apply in_rev in Hx. exact (proj1 (forallb_forall _ _) H x Hx).
Qed.

Lemma lstrip_app : forall s w,
  Py.lstrip (s ++ w) = if all_space s then Py.lstrip w else Py.lstrip s ++ w.
Proof.
  induction s as [|c s IH]; intros w; simpl; [reflexivity|].
  unfold all_space in *. simpl. destruct (Py.is_space c); simpl; [apply IH | reflexivity].
Qed.

Lemma lstrip_all_space : forall s, all_space s = true -> Py.lstrip s = "".
Proof.
  induction s as [|c s IH]; intros H; simpl; [reflexivity|].
  unfold all_space in H. simpl in H. apply andb_prop in H as [H1 H2]. rewrite H1. apply IH, H2.
Qed.

Lemma strip_pad : forall w1 s w2,
  all_space w1 = true -> all_space w2 = true -> Py.strip (w1 ++ s ++ w2) = Py.strip s.
Proof.
  intros w1 s w2 H1 H2. unfold Py.strip.
  rewrite lstrip_app, H1, lstrip_app.
  destruct (all_space s) eqn:Es.
  - rewrite (lstrip_all_space w2 H2), (lstrip_all_space s Es). reflexivity.
  - rewrite rev_string_app, lstrip_app, (all_space_rev w2 H2). reflexivity.
Qed.

Lemma strip_ends : forall s,
  Py.lstrip s = s -> Py.lstrip (Py.rev_string s) = Py.rev_string s -> Py.strip s = s.
Proof.
  intros s H1 H2. unfold Py.strip. rewrite H1, H2. apply rev_string_involutive.
Qed.

Lemma prefix_self : forall a t, String.prefix a (a ++ t) = true.
Proof.
  induction a as [|c a IH]; intros t; cbn [String.prefix String.append]; [destruct t; reflexivity|].
  destruct (ascii_dec c c); [apply IH | congruence].
Qed.

Lemma replace_aux_head : forall f old new t,
  Py.replace_aux (S f) old new (old ++ t) = new ++ Py.replace_aux f old new t.
Proof.
  intros f old new t. simpl. rewrite prefix_self, substring_after. reflexivity.
Qed.

Lemma no_bt_cons : forall c s,
  Py.contains "`" (String c s) = false -> c <> "`"%char /\ Py.contains "`" s = false.
Proof.
  intros c s H. cbn [Py.contains String.prefix] in H. destruct (ascii_dec "`" c) as [E|E].
  - destruct s; discriminate.
  - split; [intros ->; apply E; reflexivity|]. exact H.
Qed.

Lemma prefix_bt_false : forall old c s,
  c <> "`"%char -> String.prefix (String "`" old) (String c s) = false.
Proof.
  intros old c s H. cbn [String.prefix]. destruct (ascii_dec "`" c); [congruence | reflexivity].
Qed.

Lemma replace_aux_no_bt : forall f old new s t,
  Py.contains "`" s = false -> String.length s < f ->
  Py.replace_aux f (String "`" old) new (s ++ t) =
    s ++ Py.replace_aux (f - String.length s) (String "`" old) new t.
Proof.
  intros f old new s. revert f. induction s as [|c s IH]; intros f t Hs Hf.
  - simpl. rewrite Nat.sub_0_r. reflexivity.
  - destruct (no_bt_cons c s Hs) as [Hc Hs'].
    destruct f as [|f]; [simpl in Hf; lia|].
    cbn [Py.replace_aux String.append].
    rewrite prefix_bt_false by exact Hc.
    rewrite (IH f t Hs') by (simpl in Hf; lia). reflexivity.
Qed.

Lemma replace_aux_no_match : forall f old new s,
  Py.contains "`" s = false -> Py.replace_aux f (String "`" old) new s = s.
Proof.
  induction f as [|f IH]; intros old new s Hs; [reflexivity|].
  destruct s as [|c s]; [reflexivity|].
  destruct (no_bt_cons c s Hs) as [Hc Hs'].
  cbn [Py.replace_aux]. rewrite prefix_bt_false by exact Hc.
  f_equal. apply IH, Hs'.
Qed.

Lemma string_append_nil_r : forall s, s ++ "" = s.
Proof. induction s as [|c s IH]; simpl; [reflexivity | rewrite IH; reflexivity]. Qed.

Lemma string_append_assoc : forall a b c, a ++ (b ++ c) = (a ++ b) ++ c.
Proof. induction a as [|x a IH]; intros b c; simpl; [reflexivity | rewrite IH; reflexivity]. Qed.

Lemma string_length_app : forall a b, String.length (a ++ b) = String.length a + String.length b.
Proof. induction a as [|x a IH]; intros b; simpl; [reflexivity | rewrite IH; reflexivity]. Qed.

Lemma contains_bt_app : forall a b,
  Py.contains "`" (a ++ b) = Py.contains "`" a || Py.contains "`" b.
Proof.
  induction a as [|x a IH]; intros b.
  - destruct b; reflexivity.
  - cbn [String.append Py.contains String.prefix].
    destruct (ascii_dec "`" x); [destruct (a ++ b), a; reflexivity|].
    apply IH.
Qed.

Lemma lstrip_nonspace : forall c s, Py.is_space c = false -> Py.lstrip (String c s) = String c s.
Proof. intros c s H. cbn [Py.lstrip]. rewrite H. reflexivity. Qed.

Lemma rev_string_single : forall c, Py.rev_string (String c "") = String c "".
Proof. reflexivity. Qed.

Lemma strip_fenced : forall c1 c2 m,
  Py.is_space c1 = false -> Py.is_space c2 = false ->
  Py.strip (String c1 (m ++ String c2 "")) = String c1 (m ++ String c2 "").
Proof.
  intros c1 c2 m H1 H2. apply strip_ends.
  - apply lstrip_nonspace, H1.
  - change (String c1 (m ++ String c2 "")) with (String c1 "" ++ (m ++ String c2 "")).
    rewrite !rev_string_app, !rev_string_single. cbn [String.append].
    apply lstrip_nonspace, H2.
Qed.

Lemma replace_aux_nil : forall n c old new, Py.replace_aux n (String c old) new "" = "".
Proof. intros [|n] c old new; reflexivity. Qed.

Lemma fence_tail_sparql : forall k, Py.replace_aux (S (S (S k))) "```sparql" "" "```" = "```".
Proof. intros [|k]; reflexivity. Qed.

Lemma fence_tail_sql : forall k, Py.replace_aux (S (S (S k))) "```sql" "" "```" = "```".
Proof. intros [|k]; reflexivity. Qed.

Lemma fence_tail_bare : forall k, Py.replace_aux (S (S (S k))) "```" "" "```" = "".
Proof. intros [|k]; reflexivity. Qed.

Ltac bt_pass Hmid :=
  rewrite replace_aux_no_bt by (exact Hmid || (cbn [String.length]; rewrite ?string_length_app; cbn [String.length]; lia));
  match goal with
  | |- context [Py.replace_aux ?n _ _ "```"] =>
      let k := fresh "k" in
      let H3 := fresh "H3" in
      assert (H3 : 3 <= n) by (cbn [String.length]; rewrite ?string_length_app; cbn [String.length]; lia);
      let En := fresh "En" in
      destruct n as [|[|[|k]]] eqn:En; [exfalso; lia | exfalso; lia | exfalso; lia |]; clear H3 En;
      rewrite ?fence_tail_sparql, ?fence_tail_sql, ?fence_tail_bare
  end.

(** A SPARQL query without backquotes wrapped in a fenced sparql markdown block is recovered, stripped of surrounding whitespace, by [_clean_sparql_response]. *)
Theorem clean_sparql_response_fenced : forall q,
  Py.contains "`" q = false ->
  _clean_sparql_response ("```sparql" ++ nl ++ q ++ nl ++ "```") = Py.strip q.
Proof.
  intros q Hq.
  assert (Hmid : Py.contains "`" (nl ++ q ++ nl) = false).
  { rewrite !contains_bt_app, Hq. reflexivity. }
  unfold _clean_sparql_response.
  replace ("```sparql" ++ nl ++ q ++ nl ++ "```")
    with (String "`" (("``sparql" ++ nl ++ q ++ nl ++ "``") ++ String "`" ""))
    by (rewrite <- !string_append_assoc; reflexivity).
  rewrite strip_fenced by reflexivity.
  replace (String "`" (("``sparql" ++ nl ++ q ++ nl ++ "``") ++ String "`" ""))
    with ("```sparql" ++ ((nl ++ q ++ nl) ++ "```"))
    by (rewrite <- !string_append_assoc; reflexivity).
  unfold Py.replace at 3. rewrite replace_aux_head. cbn [String.append].
  bt_pass Hmid.
  unfold Py.replace at 2. bt_pass Hmid.
  unfold Py.replace at 1. bt_pass Hmid.
  rewrite string_append_nil_r, strip_pad by reflexivity. reflexivity.
Qed.

Lemma clean_sparql_response_fenced_witness :
  _clean_sparql_response ("```sparql" ++ nl ++ "SELECT ?s WHERE { ?s ?p ?o }" ++ nl ++ "```")
    = "SELECT ?s WHERE { ?s ?p ?o }".
Proof. rewrite clean_sparql_response_fenced by reflexivity. reflexivity. Defined.

(** The classifier reply is read case-insensitively and modulo surrounding whitespace: a category name of [type_mapping], in upper or lower case and padded with whitespace, maps to its query type. *)
Theorem type_of_reply_roundtrip : forall k t w1 w2,
  In (k, t) type_mapping -> all_space w1 = true -> all_space w2 = true ->
  type_of_reply (w1 ++ k ++ w2) = t /\ type_of_reply (w1 ++ Py.lower k ++ w2) = t.
Proof.
  intros k t w1 w2 Hin H1 H2. unfold type_of_reply. rewrite !strip_pad by assumption.
  simpl in Hin.
  repeat (destruct Hin as [Hin|Hin]; [injection Hin as <- <-; split; vm_compute; reflexivity|]).
  destruct Hin.
Qed.

Lemma type_of_reply_roundtrip_witness :
  type_of_reply (" " ++ "DEFINITION" ++ nl) = DEFINITION /\
  type_of_reply (" " ++ Py.lower "DEFINITION" ++ nl) = DEFINITION.
Proof.
  apply type_of_reply_roundtrip; [right; right; right; right; left; reflexivity | reflexivity | reflexivity].
Defined.

(** ** The nl2sparql helpers and the relationship generator *)

Import Relationship.


(** [_create_client] calls no service; it succeeds exactly when both [<prefix>_API] and [<prefix>_API_KEY] are set to non-empty values, and otherwise raises a [ValueError]. *)
Theorem create_client_spec : forall prefix en tr,
  fst (_create_client prefix en tr) = tr /\
  (snd (_create_client prefix en tr) = Ret tt <->
     Builder.truthy (getenv en (prefix ++ "_API")) = true /\
     Builder.truthy (getenv en (prefix ++ "_API_KEY")) = true) /\
  (forall e, snd (_create_client prefix en tr) = Exc e -> exists msg, e = ValueError msg).
Proof.
  intros prefix en tr. unfold _create_client, bind, os_getenv. cbv beta iota.
  destruct (Builder.truthy (getenv en (prefix ++ "_API"))),
           (Builder.truthy (getenv en (prefix ++ "_API_KEY"))); simpl;
  (split; [reflexivity|]); (split; [split; intros H; (discriminate || (destruct H; discriminate) || auto) |]);
  intros e He; try discriminate; injection He as <-; eexists; reflexivity.
Qed.

Lemma create_client_spec_witness :
  snd (_create_client "LIRIS" env_no_entities []) = Ret tt.
Proof. apply (proj1 (proj2 (create_client_spec "LIRIS" env_no_entities []))). split; reflexivity. Defined.

(** [_get_entities] raises a [ValueError] naming the status code when Spotlight answers with a status other than 200. *)
Theorem get_entities_bad_status : forall text en tr st res,
  spotlight en text = Some (st, res) -> st <> 200%Z ->
  _get_entities text en tr =
    (app tr [EvSpotlight text],
     Exc (ValueError ("DBpedia Spotlight request failed with status code " ++ Z_to_string st))).
Proof.
  intros text en tr st res Hs Hst. unfold _get_entities, bind, spotlight_annotate.
  rewrite Hs. cbv beta iota. apply Z.eqb_neq in Hst. rewrite Hst. reflexivity.
Qed.

Lemma get_entities_bad_status_witness :
  _get_entities "Paris" (mk_env (fun _ => None) (fun _ => Some (503%Z, [])) (fun _ _ _ => None) (fun _ => None)) [] =
    ([EvSpotlight "Paris"],
     Exc (ValueError ("DBpedia Spotlight request failed with status code " ++ Z_to_string 503))).
Proof. apply (get_entities_bad_status _ _ [] 503%Z []); [reflexivity | discriminate]. Defined.

Lemma keys_sset : forall {V} (d : list (string * V)) k v x,
  In x (map fst (Py.sset d k v)) <-> x = k \/ In x (map fst d).
Proof.
  intros V d k v x. unfold Py.sset. induction d as [|[k0 v0] d IH]; simpl.
  - intuition (subst; auto).
  - destruct (String.eqb k k0) eqn:E; simpl.
    + apply String.eqb_eq in E. subst. intuition (subst; auto).
    + rewrite IH. intuition (subst; auto).
Qed.

Lemma nodup_sset : forall {V} (d : list (string * V)) k v,
  NoDup (map fst d) -> NoDup (map fst (Py.sset d k v)).
Proof.
  intros V d k v. unfold Py.sset. induction d as [|[k0 v0] d IH]; simpl; intros H.
  - constructor; [intros []|constructor].
  - inversion H as [|? ? Hn Hd]; subst.
    destruct (String.eqb k k0) eqn:E; simpl; constructor; try assumption.
    + fold (@Py.sset V d k v). rewrite keys_sset. intros [->|Hin]; [|exact (Hn Hin)].
      rewrite String.eqb_refl in E. discriminate.
    + apply IH, Hd.
Qed.

(** On a 200 answer, [_get_entities] returns a dict whose keys are the distinct surface forms of the annotated resources, each once (a repeated surface form keeps a single entry). *)
Theorem get_entities_distinct_keys : forall text en tr res,
  spotlight en text = Some (200%Z, res) ->
  exists ents,
    _get_entities text en tr = (app tr [EvSpotlight text], Ret ents) /\
    NoDup (map fst ents) /\
    (forall s, In s (map fst ents) <-> In s (map fst res)).
Proof.
  intros text en tr res Hs. unfold _get_entities, bind, spotlight_annotate.
  rewrite Hs. cbv beta iota. simpl Z.eqb. cbv iota.
  eexists. split; [reflexivity|].
  assert (G : forall (l : list (string * string)) acc,
    NoDup (map fst acc) ->
    NoDup (map fst (fold_left (fun ents '(surface, uri0) =>
             Py.sset ents surface (Py.replace "http://dbpedia.org/resource/" "dbr:" uri0)) l acc)) /\
    (forall s, In s (map fst (fold_left (fun ents '(surface, uri0) =>
             Py.sset ents surface (Py.replace "http://dbpedia.org/resource/" "dbr:" uri0)) l acc))
               <-> In s (map fst acc) \/ In s (map fst l))).
  { induction l as [|[sf u] l IH]; intros acc Hacc; simpl.
    - split; [exact Hacc | tauto].
    - destruct (IH _ (nodup_sset acc sf (Py.replace "http://dbpedia.org/resource/" "dbr:" u) Hacc)) as [H1 H2]. split; [exact H1|].
      intros s. rewrite H2, keys_sset. intuition (subst; auto). }
  destruct (G res [] (NoDup_nil _)) as [H1 H2]. split; [exact H1|].
  intros s. rewrite H2. simpl. tauto.
Qed.

Lemma get_entities_distinct_keys_witness :
  exists ents,
    _get_entities "Paris" (mk_env (fun _ => None)
      (fun _ => Some (200%Z, [("Paris", "http://dbpedia.org/resource/Paris");
                              ("Paris", "http://dbpedia.org/resource/Paris,_Texas")]))
      (fun _ _ _ => None) (fun _ => None)) [] = ([EvSpotlight "Paris"], Ret ents) /\
    NoDup (map fst ents) /\
    (forall s, In s (map fst ents) <-> In s ["Paris"; "Paris"]).
Proof.
  apply (get_entities_distinct_keys _ _ []
           [("Paris", "http://dbpedia.org/resource/Paris");
            ("Paris", "http://dbpedia.org/resource/Paris,_Texas")]).
  reflexivity.
Defined.

(** [_verify_class_has_instances] never raises, and answers [False] only when the endpoint replied without [boolean: true]; a failing query counts as [True]. *)
Theorem verify_class_has_instances_total : forall c en tr,
  exists v tr', _verify_class_has_instances c en tr = (tr', Ret v) /\
    (v = false -> exists r, sparql en (Prefixes.prefixes ++ class_instances_query c) = Some r /\
                            q_boolean r <> Some true).
Proof.
  intros c en tr. unfold _verify_class_has_instances, try_except, bind, execute_query, ret.
  destruct (sparql en (Prefixes.prefixes ++ class_instances_query c)) as [r|]; cbv beta iota.
  - eexists. eexists. split; [reflexivity|]. intros Hv. exists r. split; [reflexivity|].
    destruct (q_boolean r) as [[|]|]; congruence.
  - eexists. eexists. split; [reflexivity|]. discriminate.
Qed.

Lemma verify_class_has_instances_total_witness :
  exists v tr', _verify_class_has_instances "dbo:City" env_classes_unverified [] = (tr', Ret v) /\
    (v = false -> exists r, sparql env_classes_unverified
                              (Prefixes.prefixes ++ class_instances_query "dbo:City") = Some r /\
                            q_boolean r <> Some true).
Proof. apply verify_class_has_instances_total. Defined.

(** [_verify_properties_batch] makes no query for an empty list, never raises, and returns its input unverified when the query fails. *)
Theorem verify_properties_batch_fail_open : forall c ps en tr,
  (ps = [] -> _verify_properties_batch c ps en tr = (tr, Ret [])) /\
  (exists tr' r, _verify_properties_batch c ps en tr = (tr', Ret r)) /\
  (sparql en (Prefixes.prefixes ++ verify_properties_query c ps) = None ->
   snd (_verify_properties_batch c ps en tr) = Ret ps).
Proof.
  intros c ps en tr. destruct ps as [|p ps'].
  - split; [reflexivity|]. split; [eexists; eexists; reflexivity | reflexivity].
  - split; [discriminate|]. unfold _verify_properties_batch, try_except. split.
    + destruct (bind _ _ en tr) as [tr' [r|e]]; eexists; eexists; reflexivity.
    + intros Hn. unfold bind at 1, execute_query. rewrite Hn. reflexivity.
Qed.

Lemma verify_properties_batch_fail_open_witness :
  snd (_verify_properties_batch "dbo:City" ["dbo:population"] env_classes_unverified []) =
    Ret ["dbo:population"].
Proof.
  apply (proj2 (proj2 (verify_properties_batch_fail_open "dbo:City" ["dbo:population"]
                          env_classes_unverified []))).
  reflexivity.
Defined.

(** With [verify=False], [_get_class_properties] returns at most 20 datatype and at most 20 object properties. *)
Theorem class_properties_unverified_bounded : forall c en tr tr' d o,
  _get_class_properties c false en tr = (tr', Ret (d, o)) ->
  length d <= 20 /\ length o <= 20.
Proof.
  intros c en tr tr' d o H. unfold _get_class_properties in H.
  apply bind_ret_inv in H as [tr1 [dp [_ H]]].
  apply bind_ret_inv in H as [tr2 [op [_ H]]].
  pose proof (firstn_le_length 20 dp) as L1. pose proof (firstn_le_length 20 op) as L2.
  cbn [negb ret] in H. injection H as _ <- <-. split; [exact L1 | exact L2].
Qed.

Lemma class_properties_unverified_bounded_witness :
  length ["dbo:birthDate"] <= 20 /\ length ["dbo:birthDate"] <= 20.
Proof.
  apply (class_properties_unverified_bounded "dbo:City" env_ask []
           [EvSPARQL (Prefixes.prefixes ++ class_properties_query "dbo:City" "owl:DatatypeProperty");
            EvSPARQL (Prefixes.prefixes ++ class_properties_query "dbo:City" "owl:ObjectProperty")]).
  vm_compute. reflexivity.
Defined.

(** [_get_class_properties] does not fail open: when the endpoint fails, it raises, with or without verification, since the ontology queries are not guarded. *)
Theorem class_properties_endpoint_down : forall c v en tr,
  (forall q, sparql en q = None) ->
  snd (_get_class_properties c v en tr) = Exc ServiceError.
Proof.
  intros c v en tr H. unfold _get_class_properties, _get_class_properties_ont, bind at 1 2, execute_query.
  rewrite H. reflexivity.
Qed.

Lemma class_properties_endpoint_down_witness :
  snd (_get_class_properties "dbo:City" true env_classes_unverified []) = Exc ServiceError.
Proof. apply class_properties_endpoint_down. intros q. reflexivity. Defined.

(** [_get_common_properties] returns [[]] without any query for fewer than two entities, and only looks at the first two entities of a longer list. *)
Theorem common_properties_first_two : forall l en tr,
  (forall uris, length uris < 2 -> _get_common_properties uris l en tr = (tr, Ret [])) /\
  (forall a b rest, _get_common_properties (a :: b :: rest) l = _get_common_properties [a; b] l).
Proof.
  intros l en tr. split.
  - intros [|a [|b rest]] H; [reflexivity | reflexivity | simpl in H; lia].
  - reflexivity.
Qed.

Lemma common_properties_first_two_witness :
  _get_common_properties ["dbr:X"] 20 env_ask [] = ([], Ret []).
Proof. apply (proj1 (common_properties_first_two 20%Z env_ask [])). simpl. lia. Defined.

Lemma mapM_Forall : forall {A B} (f : A -> M B) (P : B -> Prop) l en tr tr' ys,
  (forall x tr0 tr1 y, f x en tr0 = (tr1, Ret y) -> P y) ->
  mapM f l en tr = (tr', Ret ys) -> Forall P ys.
Proof.
  intros A B f P l en. induction l as [|x l IH]; intros tr tr' ys Hf H; simpl in H.
  - injection H as _ <-. constructor.
  - apply bind_ret_inv in H as [tr1 [y [Hy H]]].
    apply bind_ret_inv in H as [tr2 [ys' [Hys H]]].
    injection H as _ <-. constructor; [exact (Hf x tr tr1 y Hy) | exact (IH tr1 tr2 ys' Hf Hys)].
Qed.

Lemma length_substring0 : forall n s, String.length (substring 0 n s) = Nat.min n (String.length s).
Proof.
  induction n as [|n IH]; intros [|c s]; simpl; try reflexivity. rewrite IH. reflexivity.
Qed.


(** Every value [_get_entity_properties] returns has at most 103 characters (100 and the ellipsis). *)
Theorem entity_properties_values_bounded : forall uri l en tr tr' props,
  _get_entity_properties uri l en tr = (tr', Ret props) ->
  Forall (fun pv => String.length (snd pv) <= 103) props.
Proof.
  intros uri l en tr tr' props H. unfold _get_entity_properties in H.
  apply bind_ret_inv in H as [tr1 [results [_ H]]].
  apply bind_ret_inv in H as [tr2 [rows [_ H]]].
  refine (mapM_Forall _ _ rows en tr2 tr' props _ H).
  intros r tr0 tr3 y Hy.
  apply bind_ret_inv in Hy as [tr4 [p [_ Hy]]].
  apply bind_ret_inv in Hy as [tr5 [value [_ Hy]]].
  injection Hy as _ <-. simpl.
  destruct (100 <? String.length value) eqn:E.
  - rewrite string_length_app, length_substring0. cbn [String.length]. lia.
  - apply Nat.ltb_ge in E. lia.
Qed.

Lemma entity_properties_values_bounded_witness :
  Forall (fun pv => String.length (snd pv) <= 103) [("dbo:birthDate", "1961")].
Proof.
  apply (entity_properties_values_bounded "dbr:X" 30 env_ask []
           [EvSPARQL (Prefixes.prefixes ++ entity_properties_query "dbr:X" 30)]).
  vm_compute. reflexivity.
Defined.

(** [generate_and_execute_query] with an unknown configuration key raises a [ValueError] before calling any service, whatever the generators are. *)
Theorem dispatch_unknown_config : forall gcls gagg gcmp gsup gbool grel prompt ck en tr,
  Py.sget configs ck = None ->
  generate_and_execute_query gcls gagg gcmp gsup gbool grel prompt ck en tr =
    (tr, Exc (ValueError ("No configuration found for key: " ++ ck))).
Proof.
  intros gcls gagg gcmp gsup gbool grel prompt ck en tr H.
  unfold generate_and_execute_query, _detect_query_type, bind. rewrite H. reflexivity.
Qed.

Lemma dispatch_unknown_config_witness :
  generate_and_execute_query no_gen2 no_gen2 no_gen2 no_gen2 no_gen2 no_gen1
    "Who is X?" "FOO" env_ask [] =
    ([], Exc (ValueError ("No configuration found for key: " ++ "FOO"))).
Proof. apply dispatch_unknown_config. reflexivity. Defined.

(** [generate_relationship_query] never calls the chat model: it only appends Spotlight and SPARQL calls to the trace. *)
Theorem relationship_query_no_llm : forall prompt en tr,
  exists added, fst (generate_relationship_query prompt en tr) = app tr added /\
                Forall (fun ev => is_llm_event ev = false) added.
Proof.
  intros prompt en tr. unfold generate_relationship_query, _get_entities, bind, spotlight_annotate.
  destruct (spotlight en prompt) as [[st res]|]; cbv beta iota zeta.
  2: { exists [EvSpotlight prompt]. split; [reflexivity | repeat constructor]. }
  destruct (st =? 200)%Z.
  2: { exists [EvSpotlight prompt]. split; [reflexivity | repeat constructor]. }
  unfold ret at 1. cbv beta iota.
  match goal with |- context [match ?ents with _ => _ end] => destruct ents as [|[s1 e1] [|[s2 e2] rest]] end.
  1,2: exists [EvSpotlight prompt]; split; [reflexivity | repeat constructor].
  unfold execute_query. destruct (sparql en _); simpl;
  (exists [EvSpotlight prompt; EvSPARQL (Prefixes.prefixes ++ relationship_query e1 e2)];
   split; [rewrite <- app_assoc; reflexivity | repeat constructor]).
Qed.

(** [generate_relationship_query] returns [(None, None)] after the Spotlight call alone when fewer than two distinct surface forms are found. *)
Theorem relationship_needs_two_entities : forall prompt en tr ents,
  _get_entities prompt en tr = (app tr [EvSpotlight prompt], Ret ents) ->
  length ents < 2 ->
  generate_relationship_query prompt en tr = (app tr [EvSpotlight prompt], Ret (None, None)).
Proof.
  intros prompt en tr ents H Hl. unfold generate_relationship_query, bind at 1. rewrite H.
  destruct ents as [|[s1 e1] [|[s2 e2] rest]]; [reflexivity | reflexivity | simpl in Hl; lia].
Qed.

Lemma relationship_needs_two_entities_witness :
  generate_relationship_query "Who is X?" env_ask [] = ([EvSpotlight "Who is X?"], Ret (None, None)).
Proof.
  apply (relationship_needs_two_entities "Who is X?" env_ask [] [("X", "dbr:X")]).
  - vm_compute. reflexivity.
  - simpl. lia.
Defined.
